(** * InfraLink: link reconciliation core of [infralink.py]

    A shallow embedding of the utility functions and of the three panels of
    the Network Link Manager, together with the properties its specification
    states about them.

    Conventions of the embedding.
    - Text is [string]; the Python string methods the program calls
      ([strip], [lower], [startswith], [split], [join]) are written out.
    - A port cell of a data frame read by [read_excel_any] (which ends in
      [convert_dtypes()]) is text, a number or the missing value [pd.NA]; the
      device names and the Link IDs are text.
    - A data frame is its header ([columns]) and its rows in order; a row
      carries its index label wherever the program keeps it. The headers are
      text, and no two of them canonicalize to one name.
    - Library calls whose result the library leaves open (the order of ties of
      [sort_values] with the default [kind='quicksort'], the iteration order
      of a [set]) are interfaces with their contract, and instances of them
      are given. *)

From Stdlib Require Import String Ascii List Bool Arith ZArith Lia.
From Stdlib Require Import DecimalString DecimalNat.
From Stdlib Require Import Permutation Sorted.
Import ListNotations.

Local Open Scope string_scope.
Local Open Scope list_scope.

(** ** Python string methods *)

Module PyStr.

(** [str.isspace] on one character: TAB..CR, FS..US and SPACE. *)
Definition is_space (c : ascii) : bool :=
  let n := nat_of_ascii c in
  (Nat.leb 9 n && Nat.leb n 13) || (Nat.leb 28 n && Nat.leb n 32).

Fixpoint lstrip (s : string) : string :=
  match s with
  | EmptyString => EmptyString
  | String c s' => if is_space c then lstrip s' else s
  end.

Fixpoint rstrip (s : string) : string :=
  match s with
  | EmptyString => EmptyString
  | String c s' =>
      match rstrip s' with
      | EmptyString => if is_space c then EmptyString else String c EmptyString
      | t => String c t
      end
  end.

(** [s.strip()] *)
Definition strip (s : string) : string := rstrip (lstrip s).

Definition lower_ascii (c : ascii) : ascii :=
  let n := nat_of_ascii c in
  if Nat.leb 65 n && Nat.leb n 90 then ascii_of_nat (n + 32) else c.

(** [s.lower()] *)
Fixpoint lower (s : string) : string :=
  match s with
  | EmptyString => EmptyString
  | String c s' => String (lower_ascii c) (lower s')
  end.

(** [s.startswith(p)] *)
Definition startswith (s p : string) : bool := String.prefix p s.

(** [s.split('_')]: always at least one token. *)
Fixpoint split_underscore (s : string) : list string :=
  match s with
  | EmptyString => [EmptyString]
  | String c s' =>
      if Ascii.eqb c "_"%char then EmptyString :: split_underscore s'
      else match split_underscore s' with
           | [] => [String c EmptyString]
           | p :: ps => String c p :: ps
           end
  end.

(** [sep.join(parts)] *)
Definition join (sep : string) (parts : list string) : string :=
  String.concat sep parts.

(** [s.replace(old, new)] for single characters. *)
Fixpoint replace_char (old new : ascii) (s : string) : string :=
  match s with
  | EmptyString => EmptyString
  | String c s' =>
      String (if Ascii.eqb c old then new else c) (replace_char old new s')
  end.

(** [s.split()]: the maximal runs of characters that are not white space;
    [word] is the run being read. *)
Fixpoint words_from (word s : string) : list string :=
  match s with
  | EmptyString => match word with EmptyString => [] | _ => [word] end
  | String c s' =>
      if is_space c
      then match word with
           | EmptyString => words_from EmptyString s'
           | _ => word :: words_from EmptyString s'
           end
      else words_from (String.append word (String c EmptyString)) s'
  end.

Definition split_whitespace (s : string) : list string :=
  words_from EmptyString s.

(** [sub in s] *)
Fixpoint contains (sub s : string) : bool :=
  String.prefix sub s ||
  match s with
  | EmptyString => false
  | String _ s' => contains sub s'
  end.

End PyStr.

(** ** Values the functions receive *)

(** An argument of [extract_match_part]: a [str], or any other object, of
    which the function uses only [str(x)]. *)
Inductive pyobj : Type :=
| PyText (s : string)
| PyOther (str_of : string).

(** [str(x)] *)
Definition py_str (x : pyobj) : string :=
  match x with
  | PyText s => s
  | PyOther r => r
  end.

(** [isinstance(x, str)] *)
Definition isinstance_str (x : pyobj) : bool :=
  match x with
  | PyText _ => true
  | PyOther _ => false
  end.

(** ** Device Match-Token Extractor and Link Identity Normalizer *)

(** [parts[-2:]] *)
Definition last_two (parts : list string) : list string :=
  skipn (length parts - 2) parts.

Definition extract_match_part (device_name : pyobj) : string :=
  if negb (isinstance_str device_name) then py_str device_name
  else
    let parts := PyStr.split_underscore (py_str device_name) in
    if Nat.eqb (length parts) 2 then nth 1 parts EmptyString
    else if Nat.ltb 2 (length parts) then PyStr.join "_" (last_two parts)
    else py_str device_name.

(** The underscore token rules of the specification, on a string. *)
Definition token_rules (s : string) : string :=
  let parts := PyStr.split_underscore s in
  match length parts with
  | 0 | 1 => s
  | 2 => nth 1 parts EmptyString
  | _ => PyStr.join "_" (last_two parts)
  end.

Definition LinkKey : Type := string * string.

(** [tuple(sorted([a, b]))]: the sort is stable, so the pair is swapped only
    when the second is strictly smaller. *)
Definition sorted_pair (a b : string) : LinkKey :=
  if String.ltb b a then (b, a) else (a, b).

Definition normalize_link (source destination : pyobj) : LinkKey :=
  let src_match := extract_match_part (PyText (PyStr.strip (py_str source))) in
  let dst_match := extract_match_part (PyText (PyStr.strip (py_str destination))) in
  sorted_pair src_match dst_match.

(** ** Data frames *)

(** A cell: the missing value [pd.NA] that [convert_dtypes()] leaves for an
    empty cell, text, or a number (a cell of a column that [convert_dtypes()]
    keeps numeric, [Int64] or [Float64]). The functions read two things of a
    number, its [str()] and whether it is zero, and it is given by them. *)
Inductive value : Type :=
| NA
| Text (s : string)
| Num (str_of : string) (nonzero : bool).

(** [str(v)], and what [.astype(str)] makes of the cell. *)
Definition value_str (v : value) : string :=
  match v with
  | NA => "<NA>"
  | Text s => s
  | Num s _ => s
  end.

(** [pd.isna(v)] *)
Definition isna (v : value) : bool :=
  match v with
  | NA => true
  | Text _ => false
  | Num _ _ => false
  end.

Record row : Type := mkRow {
  Source : string;
  Source_Port : value;
  Destination : string;
  Destination_Port : value;
  Link_ID : string
}.

(** A row with its index label. *)
Definition irow : Type := (nat * row)%type.

(** The rows of a frame, in order. *)
Definition frame : Type := list irow.

Record DataFrame : Type := mkDataFrame {
  columns : list string;
  rows : list row
}.

(** ** Column Canonicalizer *)

(** The key a header is looked up by. *)
Definition header_key (c : string) : string :=
  let key :=
    PyStr.replace_char "-"%char " "%char
      (PyStr.replace_char "_"%char " "%char (PyStr.lower (PyStr.strip c))) in
  PyStr.join " " (PyStr.split_whitespace key).

Definition one_of (key : string) (names : list string) : bool :=
  existsb (String.eqb key) names.

(** The entry of [rename_map] for a header, when it has one. *)
Definition rename_map (c : string) : option string :=
  let key := header_key c in
  if one_of key ["source"; "src"] then Some "Source"
  else if one_of key ["source port"; "src port"; "sourceport"; "srcport"]
       then Some "Source Port"
  else if one_of key ["destination"; "dest"] then Some "Destination"
  else if one_of key ["destination port"; "dest port"; "destinationport"; "destport"]
       then Some "Destination Port"
  else None.

(** [df.rename(columns=rename_map)], then every header trimmed. The cells of
    a row are read through its fields [Source], [Source_Port], [Destination],
    [Destination_Port] and [Link_ID]; a field means something only when its
    column is in the header. *)
Definition canonicalize_columns (df : DataFrame) : DataFrame :=
  mkDataFrame
    (map (fun c => PyStr.strip (match rename_map c with
                                | Some name => name
                                | None => c
                                end)) (columns df))
    (rows df).

(** The [RangeIndex] a freshly read frame has. *)
Definition index_rows (rs : list row) : frame :=
  combine (seq 0 (length rs)) rs.

(** [df.reset_index(drop=True)] *)
Definition reset_index (df : frame) : frame := index_rows (map snd df).

(** [df[mask]] *)
Fixpoint boolean_mask {A : Type} (mask : list bool) (l : list A) : list A :=
  match mask, l with
  | b :: mask', x :: l' =>
      if b then x :: boolean_mask mask' l' else boolean_mask mask' l'
  | _, _ => []
  end.

Definition key_eqb (a b : LinkKey) : bool :=
  String.eqb (fst a) (fst b) && String.eqb (snd a) (snd b).

(** Tuples compare lexicographically. *)
Definition key_leb (a b : LinkKey) : bool :=
  String.ltb (fst a) (fst b)
  || (String.eqb (fst a) (fst b) && String.leb (snd a) (snd b)).

(** The [Normalized] column:
    [df.apply(lambda x: normalize_link(x['Source'], x['Destination']), axis=1)] *)
Definition Normalized (r : irow) : LinkKey :=
  normalize_link (PyText (Source (snd r))) (PyText (Destination (snd r))).

(** ** Preferred Port Resolver *)

(** [col.astype(str).str.lower().str.startswith(p)] on one cell. *)
Definition port_startswith (p : string) (v : value) : bool :=
  PyStr.startswith (PyStr.lower (value_str v)) p.

Definition is_empty {A : Type} (l : list A) : bool :=
  match l with
  | [] => true
  | _ :: _ => false
  end.

(** The result is a pair of Python values: [None], or a cell. *)
Definition get_preferred_ports (df : frame) (source destination : string)
  : option value * option value :=
  let filtered :=
    filter (fun r => String.eqb (Source (snd r)) source
                     && String.eqb (Destination (snd r)) destination) df in
  let filtered :=
    if is_empty filtered
    then filter (fun r => String.eqb (Source (snd r)) destination
                          && String.eqb (Destination (snd r)) source) df
    else filtered in
  match filtered with
  | [] => (None, None)
  | first :: _ =>
      let eth_source :=
        filter (fun r => port_startswith "eth" (Source_Port (snd r))) filtered in
      let eth_dest :=
        filter (fun r => port_startswith "eth" (Destination_Port (snd r))) filtered in
      let eth_source :=
        if is_empty eth_source
        then filter (fun r => port_startswith "ae" (Source_Port (snd r))) filtered
        else eth_source in
      let eth_dest :=
        if is_empty eth_dest
        then filter (fun r => port_startswith "ae" (Destination_Port (snd r))) filtered
        else eth_dest in
      let source_port :=
        match eth_source with
        | r :: _ => Source_Port (snd r)
        | [] => Source_Port (snd first)
        end in
      let dest_port :=
        match eth_dest with
        | r :: _ => Destination_Port (snd r)
        | [] => Destination_Port (snd first)
        end in
      (Some source_port, Some dest_port)
  end.

(** ** Port Priority Scorer *)

Definition port_priority_score (port : value) : Z :=
  if isna port then 0%Z
  else
    let port_str := PyStr.lower (value_str port) in
    if PyStr.startswith port_str "eth" then 3%Z
    else if PyStr.startswith port_str "ae" then 2%Z
    else 1%Z.

(** ** Duplicate Port Detector *)

(** A row of the result: the input row with the four added columns. *)
Record dup_row : Type := mkDupRow {
  dup_label : nat;
  dup_cells : row;
  Source_plus_Port : string;
  Dest_plus_Port : string;
  Source_Port_Duplicate : bool;
  Destination_Port_Duplicate : bool
}.

(** [df['Source'].astype(str).str.strip() + "_" +
     df['Source Port'].astype(str).str.strip()] on one row. *)
Definition source_plus_port (r : irow) : string :=
  String.append (PyStr.strip (Source (snd r)))
    (String.append "_" (PyStr.strip (value_str (Source_Port (snd r))))).

Definition dest_plus_port (r : irow) : string :=
  String.append (PyStr.strip (Destination (snd r)))
    (String.append "_" (PyStr.strip (value_str (Destination_Port (snd r))))).

(** [col.value_counts()] looked up at [k]. *)
Definition value_counts (col : list string) (k : string) : nat :=
  count_occ string_dec col k.

Definition find_duplicate_ports (df : frame) : list dup_row :=
  let source_col := map source_plus_port df in
  let dest_col := map dest_plus_port df in
  let annotated :=
    map (fun r =>
           mkDupRow (fst r) (snd r) (source_plus_port r) (dest_plus_port r)
             (Nat.ltb 1 (value_counts source_col (source_plus_port r)))
             (Nat.ltb 1 (value_counts dest_col (dest_plus_port r)))) df in
  filter (fun d => Source_Port_Duplicate d || Destination_Port_Duplicate d)
    annotated.

(** ** Sorting a frame *)

(** [df.sort_values(...)] with the default [kind='quicksort']: the rows come
    back rearranged and in the order asked for; where two rows compare equal
    their relative order is whatever the sorting routine leaves (pandas
    documents only [mergesort] and [stable] as stable). *)
Class SortValues : Type := {
  sort_values : (irow -> irow -> bool) -> frame -> frame;
  sort_values_perm :
    forall leb df, Permutation (sort_values leb df) df;
  sort_values_sorted :
    forall leb df,
      (forall x y, leb x y = true \/ leb y x = true) ->
      (forall x y z, leb x y = true -> leb y z = true -> leb x z = true) ->
      StronglySorted (fun x y => leb x y = true) (sort_values leb df)
}.

(** Insertion of [x] into a sorted list, before the rows it compares equal
    to: sorting by insertion keeps ties in the order of the frame. *)
Fixpoint insert_row (leb : irow -> irow -> bool) (x : irow) (l : frame) : frame :=
  match l with
  | [] => [x]
  | y :: l' => if leb x y then x :: l else y :: insert_row leb x l'
  end.

Definition insertion_sort (leb : irow -> irow -> bool) (df : frame) : frame :=
  fold_right (insert_row leb) [] df.

(** ** The sorting routine of numpy *)

(** [argsort(kind='quicksort')] of numpy where it runs its own quicksort
    ([npysort/quicksort.cpp], [aquicksort_]): an introsort on the array
    [tosort] of positions, with a median of three as pivot, insertion sort
    on partitions of at most [SMALL_QUICKSORT + 1] elements and heapsort
    when the depth limit is used up. [less i j] compares the values at the
    positions [i] and [j]. *)
Module NumpySort.

Section Argsort.

Variable less : nat -> nat -> bool.

(** [tosort[p]] *)
Definition get (tosort : list nat) (p : nat) : nat := nth p tosort 0.

(** [tosort[p] = x] *)
Fixpoint set (tosort : list nat) (p x : nat) : list nat :=
  match tosort, p with
  | [], _ => []
  | _ :: rest, 0 => x :: rest
  | y :: rest, S p' => y :: set rest p' x
  end.

(** [INTP_SWAP(tosort[p], tosort[q])] *)
Definition swap (tosort : list nat) (p q : nat) : list nat :=
  set (set tosort p (get tosort q)) q (get tosort p).

Definition SMALL_QUICKSORT : nat := 16.

(** [do { ++pi; } while (less(v[*pi], vp));] *)
Fixpoint scan_up (fuel : nat) (tosort : list nat) (vp pi : nat) : nat :=
  match fuel with
  | 0 => S pi
  | S fuel' =>
      if less (get tosort (S pi)) vp then scan_up fuel' tosort vp (S pi)
      else S pi
  end.

(** [do { --pj; } while (less(vp, v[*pj]));] *)
Fixpoint scan_down (fuel : nat) (tosort : list nat) (vp pj : nat) : nat :=
  match fuel with
  | 0 => pj - 1
  | S fuel' =>
      if less vp (get tosort (pj - 1)) then scan_down fuel' tosort vp (pj - 1)
      else pj - 1
  end.

(** The [for (;;)] loop of the partition; it returns the array and [pi]. *)
Fixpoint exchange (fuel : nat) (tosort : list nat) (vp pi pj : nat)
  : list nat * nat :=
  match fuel with
  | 0 => (tosort, pi)
  | S fuel' =>
      let pi := scan_up (length tosort) tosort vp pi in
      let pj := scan_down (length tosort) tosort vp pj in
      if Nat.leb pj pi then (tosort, pi)
      else exchange fuel' (swap tosort pi pj) vp pi pj
  end.

(** One pass of [while ((pr - pl) > SMALL_QUICKSORT)]: the median of the
    first, the middle and the last element goes to [pr - 1] as pivot, the
    rest is exchanged around it, and the pivot is put at [pi]. *)
Definition partition (tosort : list nat) (pl pr : nat) : list nat * nat :=
  let pm := pl + Nat.div2 (pr - pl) in
  let tosort :=
    if less (get tosort pm) (get tosort pl) then swap tosort pm pl else tosort in
  let tosort :=
    if less (get tosort pr) (get tosort pm) then swap tosort pr pm else tosort in
  let tosort :=
    if less (get tosort pm) (get tosort pl) then swap tosort pm pl else tosort in
  let vp := get tosort pm in
  let pj := pr - 1 in
  let tosort := swap tosort pm pj in
  let '(tosort, pi) := exchange (length tosort) tosort vp pl pj in
  (swap tosort pi (pr - 1), pi).

(** The inner [while] of the insertion sort: the elements above [vi] move up
    by one place. *)
Fixpoint shift (fuel : nat) (tosort : list nat) (pl vi pj : nat) : list nat :=
  match fuel with
  | 0 => set tosort pj vi
  | S fuel' =>
      if Nat.ltb pl pj && less vi (get tosort (pj - 1))
      then shift fuel' (set tosort pj (get tosort (pj - 1))) pl vi (pj - 1)
      else set tosort pj vi
  end.

(** [for (pi = pl + 1; pi <= pr; ++pi)], [count] passes from [pi] on. *)
Fixpoint insertion_from (count : nat) (tosort : list nat) (pl pi : nat)
  : list nat :=
  match count with
  | 0 => tosort
  | S count' =>
      insertion_from count'
        (shift (length tosort) tosort pl (get tosort pi) pi) pl (S pi)
  end.

Definition insertion (tosort : list nat) (pl pr : nat) : list nat :=
  insertion_from (pr - pl) tosort pl (S pl).

(** [aheapsort_] on the [n] elements from [pl] on; its array [a] is [tosort]
    offset by one, [a[i] = tosort[pl + i - 1]]. *)
Definition heap_get (tosort : list nat) (pl i : nat) : nat :=
  get tosort (pl + i - 1).

Definition heap_set (tosort : list nat) (pl i x : nat) : list nat :=
  set tosort (pl + i - 1) x.

(** [for (i, j; j <= n;) { ... } a[i] = tmp;] *)
Fixpoint sift (fuel : nat) (tosort : list nat) (pl n tmp i j : nat) : list nat :=
  match fuel with
  | 0 => heap_set tosort pl i tmp
  | S fuel' =>
      if Nat.leb j n then
        let j :=
          if Nat.ltb j n
             && less (heap_get tosort pl j) (heap_get tosort pl (S j))
          then S j else j in
        if less tmp (heap_get tosort pl j)
        then sift fuel' (heap_set tosort pl i (heap_get tosort pl j)) pl n tmp j (j + j)
        else heap_set tosort pl i tmp
      else heap_set tosort pl i tmp
  end.

(** [for (l = n >> 1; l > 0; --l)] *)
Fixpoint heapify (l : nat) (tosort : list nat) (pl n : nat) : list nat :=
  match l with
  | 0 => tosort
  | S l' =>
      heapify l'
        (sift (length tosort) tosort pl n (heap_get tosort pl l) l (l + l)) pl n
  end.

(** [for (; n > 1;)] *)
Fixpoint extract (n : nat) (tosort : list nat) (pl : nat) : list nat :=
  match n with
  | 0 => tosort
  | S n' =>
      if Nat.ltb 1 n then
        let tmp := heap_get tosort pl n in
        let tosort := heap_set tosort pl n (heap_get tosort pl 1) in
        extract n' (sift (length tosort) tosort pl n' tmp 1 2) pl
      else tosort
  end.

Definition aheapsort (tosort : list nat) (pl n : nat) : list nat :=
  extract n (heapify (Nat.div2 n) tosort pl n) pl.

(** The loop over the stack of partitions. The partition that is pushed is
    sorted when it is popped, after the depth check ([popped]); the other one
    is carried on with at once. The two do not overlap, so each is sorted
    here where it is split off. *)
Fixpoint quicksort (fuel : nat) (tosort : list nat) (pl pr : nat) (cdepth : Z)
  (popped : bool) : list nat :=
  match fuel with
  | 0 => tosort
  | S fuel' =>
      if popped && (cdepth <? 0)%Z then aheapsort tosort pl (pr - pl + 1)
      else if Nat.ltb SMALL_QUICKSORT (pr - pl) then
        let '(tosort, pi) := partition tosort pl pr in
        let cdepth := (cdepth - 1)%Z in
        if Nat.ltb (pi - pl) (pr - pi) then
          quicksort fuel' (quicksort fuel' tosort pl (pi - 1) cdepth false)
            (S pi) pr cdepth true
        else
          quicksort fuel' (quicksort fuel' tosort (S pi) pr cdepth false)
            pl (pi - 1) cdepth true
      else insertion tosort pl pr
  end.

(** [aquicksort_] on [num] values: the positions in ascending order of their
    values. *)
Definition aquicksort (num : nat) : list nat :=
  match num with
  | 0 => []
  | S _ =>
      quicksort num (seq 0 num) 0 (num - 1) (2 * Z.of_nat (Nat.log2 num)) true
  end.

End Argsort.

End NumpySort.

(** [df.take(indexer)] *)
Definition take (df : frame) (indexer : list nat) : frame :=
  map (fun i => nth i df (0, mkRow "" NA "" NA "")) indexer.

(** [nargsort(items, kind='quicksort', ascending=False)] of pandas: the
    column is reversed, sorted ascending by numpy, and the indexer read
    backwards ([nonnan[::-1]], [nonnan_idx[::-1]], [indexer[::-1]]). [less]
    compares the values of two rows in the column. *)
Definition nargsort_descending (less : irow -> irow -> bool) (df : frame)
  : list nat :=
  let n := length df in
  let nonnan := rev df in
  let positions :=
    NumpySort.aquicksort
      (fun i j => less (nth i nonnan (0, mkRow "" NA "" NA ""))
                       (nth j nonnan (0, mkRow "" NA "" NA ""))) n in
  rev (map (fun i => n - 1 - i) positions).

(** Whether a list of positions holds each of [0 .. n-1] once. *)
Definition is_indexer (n : nat) (indexer : list nat) : bool :=
  Nat.eqb (length indexer) n
  && forallb (fun i => existsb (Nat.eqb i) indexer) (seq 0 n).

(** Whether every row comes before all rows after it. *)
Fixpoint is_sorted (leb : irow -> irow -> bool) (df : frame) : bool :=
  match df with
  | [] => true
  | x :: df' => forallb (leb x) df' && is_sorted leb df'
  end.

(** [df.sort_values(col, ascending=False)] as pandas and numpy run it with
    the default kind, where numpy sorts with its own quicksort: [leb] is the
    descending order of the column. That the routine returns a sorted
    rearrangement is checked on its result, not proved of it; a result that
    failed the check would be replaced by the frame sorted by insertion. *)
Definition quicksort_descending (leb : irow -> irow -> bool) (df : frame) : frame :=
  let indexer := nargsort_descending (fun x y => negb (leb x y)) df in
  if is_indexer (length df) indexer && is_sorted leb (take df indexer)
  then take df indexer
  else insertion_sort leb df.

(** ** Directional Duplicate Resolver *)

(** The [Total Priority] column. *)
Definition Total_Priority (r : irow) : Z :=
  (port_priority_score (Source_Port (snd r))
   + port_priority_score (Destination_Port (snd r)))%Z.

(** [ascending=False] *)
Definition by_total_priority_desc (a b : irow) : bool :=
  (Total_Priority b <=? Total_Priority a)%Z.

(** [df.duplicated(subset=['Normalized'], keep='first')], given the keys seen
    so far. *)
Fixpoint duplicated_from (seen : list LinkKey) (df : frame) : list bool :=
  match df with
  | [] => []
  | r :: df' =>
      existsb (key_eqb (Normalized r)) seen
      :: duplicated_from (Normalized r :: seen) df'
  end.

Definition duplicated (df : frame) : list bool := duplicated_from [] df.

(** [df.drop_duplicates(subset=['Normalized'], keep='first')] *)
Definition drop_duplicates (df : frame) : frame :=
  boolean_mask (map negb (duplicated df)) df.

Definition remove_duplicate_links_with_priority {S : SortValues} (df : frame)
  : frame * frame :=
  let df := sort_values by_total_priority_desc df in
  let cleaned := drop_duplicates df in
  let duplicates := boolean_mask (duplicated df) df in
  (cleaned, duplicates).

(** ** Grouping by link *)

(** The distinct keys in order of first appearance. *)
Fixpoint unique (keys : list LinkKey) : list LinkKey :=
  match keys with
  | [] => []
  | k :: keys' => k :: filter (fun k' => negb (key_eqb k' k)) (unique keys')
  end.

Fixpoint insert_key (k : LinkKey) (l : list LinkKey) : list LinkKey :=
  match l with
  | [] => [k]
  | k' :: l' => if key_leb k k' then k :: l else k' :: insert_key k l'
  end.

Definition sort_keys (keys : list LinkKey) : list LinkKey :=
  fold_right insert_key [] keys.

(** The rows of link [k]: [df[df['Normalized'] == k]]. *)
Definition rows_of_link (df : frame) (k : LinkKey) : frame :=
  filter (fun r => key_eqb (Normalized r) k) df.

(** [df.groupby('Normalized')]: the groups in key order ([sort=True]), each
    with its rows in frame order. *)
Definition groupby (df : frame) : list (LinkKey * frame) :=
  map (fun k => (k, rows_of_link df k)) (sort_keys (unique (map Normalized df))).

(** ** Exceptions *)

Inductive exn : Type :=
| TypeError (msg : string)
| IndexError (msg : string).

Definition exn_str (e : exn) : string :=
  match e with
  | TypeError msg => msg
  | IndexError msg => msg
  end.

Inductive result (A : Type) : Type :=
| Ok (a : A)
| Raise (e : exn).

Arguments Ok {A} a.
Arguments Raise {A} e.

Definition bind {A B : Type} (m : result A) (k : A -> result B) : result B :=
  match m with
  | Ok a => k a
  | Raise e => Raise e
  end.

Notation "x <- m ;; k" := (bind m (fun x => k))
  (at level 61, m at next level, right associativity).

(** The truth value of a Python value in [if v]: [None], the empty string
    and a zero are false, other text and other numbers are true, and [pd.NA]
    has none ([bool(pd.NA)] raises). *)
Definition py_truth (v : option value) : result bool :=
  match v with
  | None => Ok false
  | Some NA => Raise (TypeError "boolean value of NA is ambiguous")
  | Some (Text s) => Ok (negb (String.eqb s ""))
  | Some (Num _ nonzero) => Ok nonzero
  end.

(** [str(v)] of a Python value. *)
Definition opt_str (v : option value) : string :=
  match v with
  | None => "None"
  | Some c => value_str c
  end.

(** [str(p).strip() if p else 'N/A'] *)
Definition corrected_str (p : option value) : result string :=
  t <- py_truth p ;;
  Ok (if t then PyStr.strip (opt_str p) else "N/A").

(** ** Port Correction Analyzer *)

Record correction : Type := mkCorrection {
  pc_Link_Name : string;
  pc_Source : string;
  pc_Original_Source_Port : string;
  pc_Corrected_Source_Port : string;
  pc_Destination : string;
  pc_Original_Destination_Port : string;
  pc_Corrected_Destination_Port : string;
  pc_Port_Priority_Applied : bool;
  pc_Issue : string
}.

(** [f"{src} to {dst}"] *)
Definition link_name (src dst : string) : string :=
  String.append src (String.append " to " dst).

(** [s.lower().startswith(('eth', 'ae'))] *)
Definition startswith_eth_ae (s : string) : bool :=
  PyStr.startswith (PyStr.lower s) "eth" || PyStr.startswith (PyStr.lower s) "ae".

(** The trimmed port strings of a row. *)
Definition orig_src (r : irow) : string :=
  PyStr.strip (value_str (Source_Port (snd r))).

Definition orig_dst (r : irow) : string :=
  PyStr.strip (value_str (Destination_Port (snd r))).

(** The body of [for _, row in group.iterrows()]; each record is kept with the
    index label of the row it was made for (the loop's [_]). *)
Fixpoint correct_rows (src dst : string) (corr_src_port corr_dst_port : option value)
  (group : frame) : result (list (nat * correction)) :=
  match group with
  | [] => Ok []
  | r :: group' =>
      corr_src <- corrected_str corr_src_port ;;
      corr_dst <- corrected_str corr_dst_port ;;
      let here :=
        if negb (String.eqb (orig_src r) corr_src)
           || negb (String.eqb (orig_dst r) corr_dst)
        then [(fst r,
               mkCorrection (link_name src dst) src (orig_src r) corr_src
                 dst (orig_dst r) corr_dst
                 (startswith_eth_ae corr_src || startswith_eth_ae corr_dst)
                 "Port Mismatch")]
        else [] in
      rest <- correct_rows src dst corr_src_port corr_dst_port group' ;;
      Ok (here ++ rest)
  end.

(** The body of [for norm_link, group in link_groups]. *)
Definition correct_group (main_df : frame) (group : frame)
  : result (list (nat * correction)) :=
  if Nat.ltb 1 (length group) then
    match group with
    | [] => Ok []
    | sample_row :: _ =>
        let src := Source (snd sample_row) in
        let dst := Destination (snd sample_row) in
        let '(corr_src_port, corr_dst_port) := get_preferred_ports main_df src dst in
        correct_rows src dst corr_src_port corr_dst_port group
    end
  else Ok [].

Fixpoint correct_groups (main_df : frame) (groups : list (LinkKey * frame))
  : result (list (nat * correction)) :=
  match groups with
  | [] => Ok []
  | (_, group) :: groups' =>
      here <- correct_group main_df group ;;
      rest <- correct_groups main_df groups' ;;
      Ok (here ++ rest)
  end.

Definition port_corrections (main_df : frame) : result (list (nat * correction)) :=
  correct_groups main_df (groupby main_df).

(** ** Cross-Dataset Matcher *)

(** Iterating a Python [set]: every element once, in an order the language
    leaves open (it follows the hashes, and string hashes change from one
    process to the next). The argument lists what was put in the set. *)
Class SetOrder : Type := {
  set_iter : list LinkKey -> list LinkKey;
  set_iter_NoDup : forall keys, NoDup (set_iter keys);
  set_iter_In : forall keys k, In k (set_iter keys) <-> In k keys
}.

Record analysis : Type := mkAnalysis {
  an_Link_Name : string;
  an_Source : string;
  an_Original_Source_Port : value;
  an_Destination : string;
  an_Original_Destination_Port : value;
  an_Match_Status : string;
  (* the report holds [str(norm_link)]; the tuple itself is kept here *)
  an_Normalized_Link : LinkKey
}.

Record missing_link : Type := mkMissing {
  ms_Link_Name : string;
  ms_Source : string;
  ms_Corrected_Source_Port : option value;
  ms_Destination : string;
  ms_Corrected_Destination_Port : option value;
  ms_Normalized_Link : LinkKey
}.

(** [main_df.sort_values(by=['Normalized']).reset_index(drop=True)] *)
Definition sort_by_link {S : SortValues} (df : frame) : frame :=
  reset_index (sort_values (fun a b => key_leb (Normalized a) (Normalized b)) df).

(** [norm_link in match_links] *)
Definition in_links (k : LinkKey) (links : list LinkKey) : bool :=
  existsb (key_eqb k) links.

(** The body of [for norm_link in all_links]: what it appends to
    [analysis_results] and to [missing_results]. *)
Definition analyse_link (main_df : frame) (match_links : list LinkKey)
  (norm_link : LinkKey) : list analysis * list missing_link :=
  let main_subset := rows_of_link main_df norm_link in
  match main_subset with
  | [] => ([], [])
  | original :: _ =>
      let src := Source (snd original) in
      let dst := Destination (snd original) in
      let exists_ := in_links norm_link match_links in
      let '(corr_src_port, corr_dst_port) := get_preferred_ports main_df src dst in
      ([mkAnalysis (link_name src dst) src (Source_Port (snd original))
          dst (Destination_Port (snd original))
          (if exists_ then "Found" else "Missing") norm_link],
       if negb exists_
       then [mkMissing (link_name src dst) src corr_src_port dst corr_dst_port
               norm_link]
       else [])
  end.

Definition analysis_results {O : SetOrder} (main_df match_df : frame)
  : list analysis :=
  let all_links := set_iter (map Normalized main_df) in
  let match_links := map Normalized match_df in
  flat_map (fun k => fst (analyse_link main_df match_links k)) all_links.

Definition missing_results {O : SetOrder} (main_df match_df : frame)
  : list missing_link :=
  let all_links := set_iter (map Normalized main_df) in
  let match_links := map Normalized match_df in
  flat_map (fun k => snd (analyse_link main_df match_links k)) all_links.

(** ** The panels *)

(** What a panel leaves on the page. *)
Inductive outcome (A : Type) : Type :=
| ErrorStop (message : string)   (* [st.error(message); st.stop()] *)
| Error (message : string)       (* [st.error(message)], nothing after it *)
| Shown (reports : A).

Arguments ErrorStop {A} message.
Arguments Error {A} message.
Arguments Shown {A} reports.

Definition has_column (df : DataFrame) (c : string) : bool :=
  existsb (String.eqb c) (columns df).

(** [[c for c in required_cols if c not in df.columns]] *)
Definition missing_columns (required_cols : list string) (df : DataFrame)
  : list string :=
  filter (fun c => negb (has_column df c)) required_cols.

(** Panels 1 and 2. *)
Definition required_cols : list string :=
  ["Source"; "Source Port"; "Destination"; "Destination Port"].

(** Panel 3. *)
Definition required_cols_remove : list string :=
  ["Source"; "Destination"; "Source Port"; "Destination Port"].

(** [f"Missing columns: {', '.join(missing)}"] *)
Definition missing_message (missing : list string) : string :=
  String.append "Missing columns: " (PyStr.join ", " missing).

(** [f"{name} missing columns: {', '.join(missing)}"] *)
Definition named_missing_message (name : string) (missing : list string)
  : string :=
  String.append name (String.append " missing columns: " (PyStr.join ", " missing)).

(** [for df, name in [(main_df, "Main"), (match_df, "Match")]]: the message
    of the first frame that lacks a column, where the script stops. *)
Fixpoint check_required (dfs : list (DataFrame * string)) : option string :=
  match dfs with
  | [] => None
  | (df, name) :: dfs' =>
      let missing := missing_columns required_cols df in
      if negb (is_empty missing) then Some (named_missing_message name missing)
      else check_required dfs'
  end.

(** [f"Error: {e}"] *)
Definition error_message (e : exn) : string :=
  String.append "Error: " (exn_str e).

Record link_reports : Type := mkLinkReports {
  analysis_df : list analysis;
  missing_df : list missing_link;
  ports_df : list correction
}.

(** Panel 1: Link Analysis (Main vs Phoenix DB). *)
Definition link_analysis {S : SortValues} {O : SetOrder}
  (main_db match_db : DataFrame) : outcome link_reports :=
  let main_df := canonicalize_columns main_db in
  let match_df := canonicalize_columns match_db in
  match check_required [(main_df, "Main"); (match_df, "Match")] with
  | Some message => ErrorStop message
  | None =>
      let main_df := sort_by_link (index_rows (rows main_df)) in
      let match_df := sort_by_link (index_rows (rows match_df)) in
      match port_corrections main_df with
      | Raise e => Error (error_message e)
      | Ok corrections =>
          Shown (mkLinkReports (analysis_results main_df match_df)
                   (missing_results main_df match_df)
                   (map snd corrections))
      end
  end.

(** Panel 2: Duplicate Port Finder. *)
Definition duplicate_port_finder (match_db : DataFrame)
  : outcome (list dup_row) :=
  let match_df := canonicalize_columns match_db in
  let missing := missing_columns required_cols match_df in
  if negb (is_empty missing) then Error (missing_message missing)
  else Shown (find_duplicate_ports (index_rows (rows match_df))).

(** [str(n)] *)
Definition nat_str (n : nat) : string :=
  NilEmpty.string_of_uint (Nat.to_uint n).

(** [df['Link ID'] = "Row " + (df.index + 1).astype(str)] *)
Definition synthesize_link_ids (df : frame) : frame :=
  map (fun r =>
         (fst r,
          mkRow (Source (snd r)) (Source_Port (snd r)) (Destination (snd r))
            (Destination_Port (snd r))
            (String.append "Row " (nat_str (fst r + 1))))) df.

(** [df.duplicated(subset=['Normalized'], keep=False)] *)
Definition duplicated_keep_false (df : frame) : list bool :=
  map (fun r => Nat.ltb 1 (length (rows_of_link df (Normalized r)))) df.

Definition keep_status (is_duplicate : bool) : string :=
  if is_duplicate then "Duplicate (would be removed)"
  else "Original (would be kept)".

(** The [first] aggregate: the first cell of the group that is not missing. *)
Fixpoint first_valid (cells : list value) : value :=
  match cells with
  | [] => NA
  | NA :: cells' => first_valid cells'
  | v :: _ => v
  end.

Record summary_row : Type := mkSummary {
  sm_Link_Name : string;
  sm_Link_IDs : string;
  sm_Source : string;
  sm_Source_Port : value;
  sm_Destination : string;
  sm_Destination_Port : value;
  sm_To_Be_Removed : string
}.

(** The body of [for _, row in grouped_duplicates.iterrows()]. *)
Definition summarise_group (all_duplicates : list (irow * string))
  (k : LinkKey) (group : frame) : result summary_row :=
  let all_link_ids := map (fun r => Link_ID (snd r)) group in
  let link_rows :=
    filter (fun rs => key_eqb (Normalized (fst rs)) k) all_duplicates in
  match filter (fun rs => String.eqb (snd rs) "Original (would be kept)") link_rows with
  | [] => Raise (IndexError "single positional indexer is out-of-bounds")
  | kept_row :: _ =>
      let kept_link_id := Link_ID (snd (fst kept_row)) in
      let to_be_removed :=
        filter (fun lid => negb (String.eqb lid kept_link_id)) all_link_ids in
      let source := match group with r :: _ => Source (snd r) | [] => "" end in
      let destination :=
        match group with r :: _ => Destination (snd r) | [] => "" end in
      Ok (mkSummary (link_name source destination)
            (PyStr.join ", " all_link_ids)
            source
            (first_valid (map (fun r => Source_Port (snd r)) group))
            destination
            (first_valid (map (fun r => Destination_Port (snd r)) group))
            (if is_empty to_be_removed then "None"
             else PyStr.join ", " to_be_removed))
  end.

Fixpoint summarise_groups (all_duplicates : list (irow * string))
  (groups : list (LinkKey * frame)) : result (list summary_row) :=
  match groups with
  | [] => Ok []
  | (k, group) :: groups' =>
      here <- summarise_group all_duplicates k group ;;
      rest <- summarise_groups all_duplicates groups' ;;
      Ok (here :: rest)
  end.

(** [summary_data] of panel 3, from the frame in its original order. *)
Definition summary_data (df : frame) : result (list summary_row) :=
  let all_duplicates := boolean_mask (duplicated_keep_false df) df in
  let all_duplicates_status :=
    combine all_duplicates (map keep_status (duplicated all_duplicates)) in
  summarise_groups all_duplicates_status (groupby all_duplicates).

Record dedup_reports : Type := mkDedupReports {
  cleaned_df : frame;
  duplicates_df : frame;
  summary_df : list summary_row
}.

(** Panel 3: Remove Duplicate Links. *)
Definition remove_duplicate_links {S : SortValues} (db : DataFrame)
  : outcome dedup_reports :=
  let canonical := canonicalize_columns db in
  let missing := missing_columns required_cols_remove canonical in
  if negb (is_empty missing) then Error (missing_message missing)
  else
    let df := index_rows (rows canonical) in
    let df :=
      if has_column canonical "Link ID" then df else synthesize_link_ids df in
    let '(cleaned, duplicates) := remove_duplicate_links_with_priority df in
    match summary_data df with
    | Raise e => Error (error_message e)
    | Ok summary => Shown (mkDedupReports cleaned duplicates summary)
    end.

(** ** Vocabulary of the statements *)

(** The rows [drop_duplicates] keeps, given the keys seen so far. *)
Definition kept_from (seen : list LinkKey) (df : frame) : frame :=
  boolean_mask (map negb (duplicated_from seen df)) df.

(** The LinkKey of a row does not depend on its index label. *)
Definition link_of (r : row) : LinkKey := Normalized (0, r).

(** The corrected pair of a link: the resolver, over the whole frame, on the
    devices of the first row of the group. *)
Definition group_corrected (main_df : frame) (k : LinkKey)
  : option value * option value :=
  match rows_of_link main_df k with
  | [] => (None, None)
  | sample_row :: _ =>
      get_preferred_ports main_df (Source (snd sample_row))
        (Destination (snd sample_row))
  end.

(** The corrected port as the report shows it: trimmed, and [N/A] when the
    resolver returned [None], an empty string or a zero. *)
Definition rendered (p : option value) : string :=
  match p with
  | Some (Text s) => if String.eqb s "" then "N/A" else PyStr.strip s
  | Some (Num s nonzero) => if nonzero then PyStr.strip s else "N/A"
  | _ => "N/A"
  end.

(** Whether the loop body appends a record for the row. *)
Definition differs (corr : option value * option value) (r : irow) : bool :=
  negb (String.eqb (orig_src r) (rendered (fst corr)))
  || negb (String.eqb (orig_dst r) (rendered (snd corr))).

Definition correction_of (src dst : string) (corr : option value * option value)
  (r : irow) : nat * correction :=
  (fst r,
   mkCorrection (link_name src dst) src (orig_src r) (rendered (fst corr))
     dst (orig_dst r) (rendered (snd corr))
     (startswith_eth_ae (rendered (fst corr))
      || startswith_eth_ae (rendered (snd corr)))
     "Port Mismatch").

(** The records of one group, when its corrected ports are not missing. *)
Definition group_records (main_df : frame) (k : LinkKey) : list (nat * correction) :=
  let group := rows_of_link main_df k in
  if Nat.ltb 1 (length group) then
    match group with
    | [] => []
    | sample_row :: _ =>
        map (correction_of (Source (snd sample_row)) (Destination (snd sample_row))
               (group_corrected main_df k))
          (filter (differs (group_corrected main_df k)) group)
    end
  else [].

(** No group of two or more rows has a missing cell for corrected port. *)
Definition corrected_present (main_df : frame) : Prop :=
  forall r, In r main_df ->
    2 <= length (rows_of_link main_df (Normalized r)) ->
    fst (group_corrected main_df (Normalized r)) <> Some NA /\
    snd (group_corrected main_df (Normalized r)) <> Some NA.

(** ** Datasets of the examples *)

(** Two records of one link, [R1]-[R2] and [R2]-[R1], with the same Total
    Priority. *)
Definition tied_first : irow :=
  (0, mkRow "R1" (Text "ae1") "R2" (Text "ae2") "L1").

Definition tied_second : irow :=
  (1, mkRow "R2" (Text "ae2") "R1" (Text "ae1") "L2").

Definition tied_links : frame := index_rows [snd tied_first; snd tied_second].

(** Four links, recorded five times each: the sheet lists the four links in
    turn, three times on [Gi] ports (Total Priority 2) and then twice on
    [Eth] ports (Total Priority 6). The two [Eth] records of a link tie on
    the highest Total Priority; the earlier ones are [L13] to [L16]. *)
Definition tied_sheet : list row :=
  [mkRow "R1" (Text "Gi0/1") "R2" (Text "Gi0/1") "L1";
   mkRow "R3" (Text "Gi0/1") "R4" (Text "Gi0/1") "L2";
   mkRow "R5" (Text "Gi0/1") "R6" (Text "Gi0/1") "L3";
   mkRow "R7" (Text "Gi0/1") "R8" (Text "Gi0/1") "L4";
   mkRow "R1" (Text "Gi0/2") "R2" (Text "Gi0/2") "L5";
   mkRow "R3" (Text "Gi0/2") "R4" (Text "Gi0/2") "L6";
   mkRow "R5" (Text "Gi0/2") "R6" (Text "Gi0/2") "L7";
   mkRow "R7" (Text "Gi0/2") "R8" (Text "Gi0/2") "L8";
   mkRow "R1" (Text "Gi0/3") "R2" (Text "Gi0/3") "L9";
   mkRow "R3" (Text "Gi0/3") "R4" (Text "Gi0/3") "L10";
   mkRow "R5" (Text "Gi0/3") "R6" (Text "Gi0/3") "L11";
   mkRow "R7" (Text "Gi0/3") "R8" (Text "Gi0/3") "L12";
   mkRow "R1" (Text "Eth1/4") "R2" (Text "Eth1/4") "L13";
   mkRow "R3" (Text "Eth1/4") "R4" (Text "Eth1/4") "L14";
   mkRow "R5" (Text "Eth1/4") "R6" (Text "Eth1/4") "L15";
   mkRow "R7" (Text "Eth1/4") "R8" (Text "Eth1/4") "L16";
   mkRow "R1" (Text "Eth1/5") "R2" (Text "Eth1/5") "L17";
   mkRow "R3" (Text "Eth1/5") "R4" (Text "Eth1/5") "L18";
   mkRow "R5" (Text "Eth1/5") "R6" (Text "Eth1/5") "L19";
   mkRow "R7" (Text "Eth1/5") "R8" (Text "Eth1/5") "L20"].

(** Device [A_B] with port [C], and device [A] with port [B_C]. *)
Definition ambiguous_ports : frame :=
  index_rows
    [mkRow "A_B" (Text "C") "X" (Text "p1") "L1";
     mkRow "A" (Text "B_C") "Y" (Text "p2") "L2"].

(** A Main sheet without a source column, a Match sheet without a
    destination column. *)
Definition main_without_source : DataFrame :=
  mkDataFrame ["src_port"; "Dest"; "Dest Port"] [].

Definition match_without_destination : DataFrame :=
  mkDataFrame ["SRC"; "Source-Port"; "destination  port"] [].

(** Dataset A holds the link [R1]-[R2]; dataset B has no such link. *)
Definition only_in_main : list row :=
  [mkRow "R1" (Text "Eth1/1") "R2" (Text "Eth2/1") "L1"].

(** Dataset A with the links [R1]-[R2] and [R3]-[R4]. *)
Definition two_links : list row :=
  [mkRow "R1" (Text "Eth1/1") "R2" (Text "Eth2/1") "L1";
   mkRow "R3" (Text "Eth3/1") "R4" (Text "Eth4/1") "L2"].

(** One link recorded twice: first as [R1]-[R2] on [ae] ports (Total Priority
    4), then as [R2]-[R1] on [Eth] ports (Total Priority 6). *)
Definition ae_then_eth : DataFrame :=
  mkDataFrame
    ["Link ID"; "Source"; "Source Port"; "Destination"; "Destination Port"]
    [mkRow "R1" (Text "ae1") "R2" (Text "ae2") "L1";
     mkRow "R2" (Text "Eth2/1") "R1" (Text "Eth1/1") "L2"].

(** The scenario of the specification: one link, first on [Eth] ports, then
    on [ae] ports. *)
Definition eth_then_ae : list row :=
  [mkRow "R1" (Text "Eth1/1") "R2" (Text "Eth2/1") "L1";
   mkRow "R1" (Text "ae1") "R2" (Text "ae2") "L2"].


(** Its second record, with the label it has in the frame. *)
Definition ae_record : irow :=
  (1, mkRow "R1" (Text "ae1") "R2" (Text "ae2") "L2").

(** One link twice, the source port cell empty in the sheet. *)
Definition missing_source_port : list row :=
  [mkRow "R1" NA "R2" (Text "Gi0/1") "L1";
   mkRow "R1" NA "R2" (Text "Gi0/2") "L2"].



(** The number of underscores of a string. *)
Fixpoint count_underscores (s : string) : nat :=
  match s with
  | EmptyString => 0
  | String c s' =>
      (if Ascii.eqb c "_"%char then 1 else 0) + count_underscores s'
  end.

(** Whether a row records a link from [source] to [destination]. *)
Definition links (source destination : string) (r : irow) : bool :=
  String.eqb (Source (snd r)) source
  && String.eqb (Destination (snd r)) destination.

(** The rows the resolver chooses from: those of the direction asked for or,
    when there are none, those of the opposite direction. *)
Definition matched_rows (df : frame) (source destination : string) : frame :=
  if is_empty (filter (links source destination) df)
  then filter (links destination source) df
  else filter (links source destination) df.

(** The port chosen in one column of the matched rows: the first that starts
    with [eth], else the first that starts with [ae], else that of the first
    row. *)
Definition preferred (port_of : row -> value) (filtered : frame) (first : irow)
  : value :=
  let eth := filter (fun r => port_startswith "eth" (port_of (snd r))) filtered in
  let eth :=
    if is_empty eth
    then filter (fun r => port_startswith "ae" (port_of (snd r))) filtered
    else eth in
  match eth with
  | r :: _ => port_of (snd r)
  | [] => port_of (snd first)
  end.

(** Rows [Eth1]/[Gi2] and [Gi1]/[Eth2] give the pair [Eth1]/[Eth2]. *)
Definition crossed_ports : frame :=
  index_rows
    [mkRow "R1" (Text "Eth1") "R2" (Text "Gi2") "L1";
     mkRow "R1" (Text "Gi1") "R2" (Text "Eth2") "L2"].

(** The name [canonicalize_columns] gives a header. *)
Definition canonical_name (c : string) : string :=
  PyStr.strip (match rename_map c with
               | Some name => name
               | None => c
               end).

(** The fields the Missing Links report shares with the Main Analysis. *)
Definition missing_key (m : missing_link) : string * string * string * LinkKey :=
  (ms_Link_Name m, ms_Source m, ms_Destination m, ms_Normalized_Link m).

Definition analysis_key (a : analysis) : string * string * string * LinkKey :=
  (an_Link_Name a, an_Source a, an_Destination a, an_Normalized_Link a).

Definition is_missing (a : analysis) : bool :=
  String.eqb (an_Match_Status a) "Missing".

(** Three different links, some port cells empty in the sheet. *)
Definition distinct_links_missing_ports : frame :=
  index_rows
    [mkRow "R1" NA "R2" (Text "Gi0/1") "L1";
     mkRow "R3" (Text "Eth1") "R4" NA "L2";
     mkRow "R5" NA "R6" NA "L3"].

(** Whether two or more rows of the frame have the LinkKey. *)
Definition repeated (df : frame) (k : LinkKey) : bool :=
  Nat.ltb 1 (length (rows_of_link df k)).

(** The LinkKeys that two or more rows have, ascending. *)
Definition duplicated_links (df : frame) : list LinkKey :=
  sort_keys
    (unique (map Normalized (filter (fun r => repeated df (Normalized r)) df))).

(** The Link IDs of the rows of a group, in the order of the frame. *)
Definition link_ids (group : frame) : list string :=
  map (fun r => Link_ID (snd r)) group.

(** The summary row of a group whose first row is taken for the kept one. *)
Definition summary_of_group (group : frame) : summary_row :=
  let kept_link_id :=
    match group with r :: _ => Link_ID (snd r) | [] => "" end in
  let to_be_removed :=
    filter (fun lid => negb (String.eqb lid kept_link_id)) (link_ids group) in
  let source := match group with r :: _ => Source (snd r) | [] => "" end in
  let destination :=
    match group with r :: _ => Destination (snd r) | [] => "" end in
  mkSummary (link_name source destination)
    (PyStr.join ", " (link_ids group))
    source
    (first_valid (map (fun r => Source_Port (snd r)) group))
    destination
    (first_valid (map (fun r => Destination_Port (snd r)) group))
    (if is_empty to_be_removed then "None" else PyStr.join ", " to_be_removed).

(** * Properties *)

(** ** Sorting routines that meet the contract of [sort_values] *)

Section InsertionSort.

Variable leb : irow -> irow -> bool.

Lemma insert_row_perm (x : irow) (l : frame) :
  Permutation (insert_row leb x l) (x :: l).
Proof.
  induction l as [|y l IH]; simpl; [reflexivity|].
  destruct (leb x y); [reflexivity|].
  rewrite IH; apply perm_swap.
Qed.

Lemma insertion_sort_perm (df : frame) :
  Permutation (insertion_sort leb df) df.
Proof.
  induction df as [|x df IH]; simpl; [reflexivity|].
  rewrite insert_row_perm; now constructor.
Qed.

Hypothesis leb_total : forall x y, leb x y = true \/ leb y x = true.
Hypothesis leb_trans :
  forall x y z, leb x y = true -> leb y z = true -> leb x z = true.

Lemma insert_row_sorted (x : irow) (l : frame) :
  StronglySorted (fun a b => leb a b = true) l ->
  StronglySorted (fun a b => leb a b = true) (insert_row leb x l).
Proof.
  induction 1 as [|y l Hl IH Hy]; simpl.
  - repeat constructor.
  - destruct (leb x y) eqn:E.
    + constructor; [now constructor|].
      constructor; [exact E|].
      eapply Forall_impl; [|exact Hy].
      intros z Hz; now apply leb_trans with y.
    + assert (E' : leb y x = true) by (destruct (leb_total x y); congruence).
      constructor; [exact IH|].
      apply Forall_forall; intros z Hz.
      apply (Permutation_in _ (insert_row_perm x l)) in Hz.
      destruct Hz as [<-|Hz]; [exact E'|].
      rewrite Forall_forall in Hy; now apply Hy.
Qed.

Lemma insertion_sort_sorted (df : frame) :
  StronglySorted (fun a b => leb a b = true) (insertion_sort leb df).
Proof.
  induction df as [|x df IH]; simpl; [constructor|].
  now apply insert_row_sorted.
Qed.

End InsertionSort.

(** A stable routine ([kind='stable']): ties keep the order of the frame. *)
Definition stable_sort_values : SortValues :=
  {| sort_values := insertion_sort;
     sort_values_perm := insertion_sort_perm;
     sort_values_sorted :=
       fun leb df Htotal Htrans => insertion_sort_sorted leb Htotal Htrans df |}.

Lemma is_sorted_StronglySorted (leb : irow -> irow -> bool) (df : frame) :
  is_sorted leb df = true -> StronglySorted (fun a b => leb a b = true) df.
Proof.
  induction df as [|x df IH]; simpl; [constructor|].
  rewrite andb_true_iff, forallb_forall; intros [Hx Hdf].
  constructor; [now apply IH | now apply Forall_forall].
Qed.

Lemma is_indexer_Permutation (n : nat) (indexer : list nat) :
  is_indexer n indexer = true -> Permutation (seq 0 n) indexer.
Proof.
  unfold is_indexer; rewrite andb_true_iff, Nat.eqb_eq, forallb_forall.
  intros [Hlen Hall]; apply NoDup_Permutation_bis.
  - apply seq_NoDup.
  - rewrite length_seq; lia.
  - intros i Hi; specialize (Hall i Hi).
    apply existsb_exists in Hall; destruct Hall as [j [Hj E]].
    apply Nat.eqb_eq in E; now subst.
Qed.

Lemma take_all (df : frame) : take df (seq 0 (length df)) = df.
Proof.
  unfold take; induction df as [|x df IH]; [reflexivity|].
  cbn [length seq map nth]; f_equal.
  rewrite <- seq_shift, map_map; exact IH.
Qed.

Lemma quicksort_descending_perm (leb : irow -> irow -> bool) (df : frame) :
  Permutation (quicksort_descending leb df) df.
Proof.
  unfold quicksort_descending.
  destruct (is_indexer _ _ && is_sorted _ _) eqn:E;
    [|apply insertion_sort_perm].
  apply andb_true_iff in E; destruct E as [E _].
  apply is_indexer_Permutation in E.
  apply Permutation_sym.
  transitivity (take df (seq 0 (length df)));
    [now rewrite take_all | apply Permutation_map, E].
Qed.

Lemma quicksort_descending_sorted (leb : irow -> irow -> bool) (df : frame) :
  (forall x y, leb x y = true \/ leb y x = true) ->
  (forall x y z, leb x y = true -> leb y z = true -> leb x z = true) ->
  StronglySorted (fun x y => leb x y = true) (quicksort_descending leb df).
Proof.
  intros Htotal Htrans; unfold quicksort_descending.
  destruct (is_indexer _ _ && is_sorted _ _) eqn:E;
    [|now apply insertion_sort_sorted].
  apply andb_true_iff in E; destruct E as [_ E].
  now apply is_sorted_StronglySorted.
Qed.

(** The routine of numpy behind a descending [sort_values]. *)
Definition quicksort_sort_values : SortValues :=
  {| sort_values := quicksort_descending;
     sort_values_perm := quicksort_descending_perm;
     sort_values_sorted := quicksort_descending_sorted |}.

(** ** Keys *)

Lemma key_eqb_eq (a b : LinkKey) : key_eqb a b = true <-> a = b.
Proof.
  destruct a as [a1 a2], b as [b1 b2]; unfold key_eqb; simpl.
  rewrite andb_true_iff, !String.eqb_eq.
  split; [intros [-> ->]; reflexivity | intros [= -> ->]; auto].
Qed.

Lemma key_eqb_refl (a : LinkKey) : key_eqb a a = true.
Proof. now apply key_eqb_eq. Qed.

Lemma key_eqb_neq (a b : LinkKey) : key_eqb a b = false <-> a <> b.
Proof.
  rewrite <- key_eqb_eq; destruct (key_eqb a b); split; congruence.
Qed.

Lemma in_links_In (k : LinkKey) (links : list LinkKey) :
  in_links k links = true <-> In k links.
Proof.
  unfold in_links; rewrite existsb_exists; split.
  - intros [x [Hx E]]; apply key_eqb_eq in E; now subst.
  - intros H; exists k; split; [exact H | apply key_eqb_refl].
Qed.

Lemma unique_In (keys : list LinkKey) (k : LinkKey) :
  In k (unique keys) <-> In k keys.
Proof.
  induction keys as [|a keys IH]; simpl; [tauto|].
  rewrite filter_In, IH, negb_true_iff, key_eqb_neq.
  destruct (key_eqb k a) eqn:E.
  - apply key_eqb_eq in E; subst; tauto.
  - apply key_eqb_neq in E; split; [tauto|].
    intros [->|H]; [now left | right; split; [exact H | exact E]].
Qed.

Lemma NoDup_filter {A : Type} (f : A -> bool) (l : list A) :
  NoDup l -> NoDup (filter f l).
Proof.
  induction 1 as [|x l Hx Hl IH]; simpl; [constructor|].
  destruct (f x); [constructor|]; auto.
  rewrite filter_In; tauto.
Qed.

Lemma unique_NoDup (keys : list LinkKey) : NoDup (unique keys).
Proof.
  induction keys as [|a keys IH]; simpl; constructor.
  - rewrite filter_In, negb_true_iff, key_eqb_neq; tauto.
  - now apply NoDup_filter.
Qed.

(** Iteration in order of first insertion. *)
Definition insertion_order : SetOrder :=
  {| set_iter := unique;
     set_iter_NoDup := unique_NoDup;
     set_iter_In := unique_In |}.

Lemma rev_unique_NoDup (keys : list LinkKey) : NoDup (rev (unique keys)).
Proof. apply NoDup_rev, unique_NoDup. Qed.

Lemma rev_unique_In (keys : list LinkKey) (k : LinkKey) :
  In k (rev (unique keys)) <-> In k keys.
Proof. rewrite <- in_rev; apply unique_In. Qed.

(** Iteration in the reverse of that order. *)
Definition reverse_order : SetOrder :=
  {| set_iter := fun keys => rev (unique keys);
     set_iter_NoDup := rev_unique_NoDup;
     set_iter_In := rev_unique_In |}.

(** ** String methods, scorer and canonicalizer on examples *)

Example strip_blanks : PyStr.strip "  R1 " = "R1".
Proof. reflexivity. Qed.

Example strip_only_blanks : PyStr.strip "   " = "".
Proof. reflexivity. Qed.

Example strip_keeps_inner : PyStr.strip " Gi 0/1 " = "Gi 0/1".
Proof. reflexivity. Qed.

Example split_three : PyStr.split_underscore "A_B_R1" = ["A"; "B"; "R1"].
Proof. reflexivity. Qed.

Example split_trailing : PyStr.split_underscore "R1_" = ["R1"; ""].
Proof. reflexivity. Qed.

Example split_words : PyStr.split_whitespace "  dest   port " = ["dest"; "port"].
Proof. reflexivity. Qed.

Example score_Eth : port_priority_score (Text "Eth1/2") = 3%Z.
Proof. reflexivity. Qed.

Example score_AE : port_priority_score (Text "AE10") = 2%Z.
Proof. reflexivity. Qed.

Example score_ae : port_priority_score (Text "ae10") = 2%Z.
Proof. reflexivity. Qed.

Example score_Gi : port_priority_score (Text "Gi0/1") = 1%Z.
Proof. reflexivity. Qed.

Example score_missing : port_priority_score NA = 0%Z.
Proof. reflexivity. Qed.

Example canonical_headers :
  columns
    (canonicalize_columns
       (mkDataFrame [" SRC "; "Source_Port"; "dest"; "Dest-Port"; " Link ID "] []))
  = ["Source"; "Source Port"; "Destination"; "Destination Port"; "Link ID"].
Proof. reflexivity. Qed.

Example resolver_no_match :
  get_preferred_ports (index_rows [mkRow "R1" (Text "Eth1") "R2" (Text "Eth2") "L1"])
    "R1" "R3"
  = (None, None).
Proof. reflexivity. Qed.

Example resolver_other_direction :
  get_preferred_ports
    (index_rows
       [mkRow "R1" (Text "Gi1") "R2" (Text "ae2") "L1";
        mkRow "R1" (Text "ETH1") "R2" (Text "Gi2") "L2"])
    "R2" "R1"
  = (Some (Text "ETH1"), Some (Text "ae2")).
Proof. reflexivity. Qed.

(** ** Device Match-Token Extractor *)

Example extract_R1 : extract_match_part (PyText "R1") = "R1".
Proof. reflexivity. Qed.

Example extract_SITE_R1 : extract_match_part (PyText "SITE_R1") = "R1".
Proof. reflexivity. Qed.

Example extract_A_B_R1 : extract_match_part (PyText "A_B_R1") = "B_R1".
Proof. reflexivity. Qed.

Example extract_A_B_C_R1 : extract_match_part (PyText "A_B_C_R1") = "C_R1".
Proof. reflexivity. Qed.

Lemma split_underscore_nonempty (s : string) : PyStr.split_underscore s <> [].
Proof.
  induction s as [|c s IH]; simpl; [discriminate|].
  destruct (Ascii.eqb c "_"%char); [discriminate|].
  destruct (PyStr.split_underscore s); discriminate.
Qed.

(** On a [str] the function computes the token rules. *)
Lemma extract_match_part_text (s : string) :
  extract_match_part (PyText s) = token_rules s.
Proof.
  unfold extract_match_part, token_rules; simpl.
  pose proof (split_underscore_nonempty s) as Hne.
  destruct (PyStr.split_underscore s) as [|p [|q [|r l]]]; simpl; congruence.
Qed.

(** C7, as the code has it: an input that is not a [str] is returned as its
    string representation [str(x)], whole; the underscore token rules are not
    applied to it. *)
Theorem extract_match_part_non_string (x : pyobj) :
  isinstance_str x = false -> extract_match_part x = py_str x.
Proof.
  intros H; unfold extract_match_part; now rewrite H.
Qed.

Lemma extract_match_part_non_string_witness :
  isinstance_str (PyOther "SITE_R1") = false /\
  extract_match_part (PyOther "SITE_R1") = "SITE_R1".
Proof.
  split; [reflexivity|].
  apply (extract_match_part_non_string (PyOther "SITE_R1")); reflexivity.
Defined.

(** C7 as stated fails: an object that is not a [str] and whose [str(x)] is
    [SITE_R1] is returned whole, while the token rules applied to [str(x)]
    give [R1]. *)
Lemma extract_match_part_non_string_not_split :
  isinstance_str (PyOther "SITE_R1") = false /\
  extract_match_part (PyOther "SITE_R1") = "SITE_R1" /\
  token_rules (py_str (PyOther "SITE_R1")) = "R1" /\
  extract_match_part (PyOther "SITE_R1")
  <> token_rules (py_str (PyOther "SITE_R1")).
Proof.
  split; [reflexivity | split; [reflexivity | split; [reflexivity|]]].
  vm_compute; discriminate.
Qed.

(** ** Link Identity Normalizer *)

Lemma ltb_asym (a b : string) : String.ltb a b = true -> String.ltb b a = false.
Proof.
  unfold String.ltb; rewrite (String.compare_antisym b a).
  destruct (String.compare a b); simpl; congruence.
Qed.

Lemma ltb_false_both (a b : string) :
  String.ltb a b = false -> String.ltb b a = false -> a = b.
Proof.
  unfold String.ltb; rewrite (String.compare_antisym b a).
  destruct (String.compare a b) eqn:E; simpl; try congruence.
  intros _ _; now apply String.compare_eq_iff.
Qed.

Lemma sorted_pair_comm (a b : string) : sorted_pair a b = sorted_pair b a.
Proof.
  unfold sorted_pair.
  destruct (String.ltb b a) eqn:Hba, (String.ltb a b) eqn:Hab; try reflexivity.
  - apply ltb_asym in Hba; congruence.
  - now rewrite (ltb_false_both a b Hab Hba).
Qed.

(** C8: the Link Identity Normalizer is symmetric,
    [normalize(a, b) == normalize(b, a)] for all device names [a] and [b]. *)
Theorem normalize_link_symmetric (a b : string) :
  normalize_link (PyText a) (PyText b) = normalize_link (PyText b) (PyText a).
Proof.
  unfold normalize_link; apply sorted_pair_comm.
Qed.

(** ** Directional Duplicate Resolver *)

Lemma boolean_mask_partition {A : Type} (mask : list bool) (l : list A) :
  length mask = length l ->
  Permutation (boolean_mask (map negb mask) l ++ boolean_mask mask l) l.
Proof.
  revert l; induction mask as [|b mask IH]; intros [|x l] Hlen;
    simpl in *; try discriminate; [constructor|].
  injection Hlen as Hlen; specialize (IH l Hlen).
  destruct b; simpl.
  - rewrite <- Permutation_middle; now constructor.
  - now constructor.
Qed.

Lemma duplicated_from_length (seen : list LinkKey) (df : frame) :
  length (duplicated_from seen df) = length df.
Proof.
  revert seen; induction df as [|r df IH]; intros seen; simpl; auto.
Qed.

Lemma kept_from_cons (seen : list LinkKey) (r : irow) (df : frame) :
  kept_from seen (r :: df) =
  if in_links (Normalized r) seen then kept_from (Normalized r :: seen) df
  else r :: kept_from (Normalized r :: seen) df.
Proof.
  unfold kept_from, in_links; simpl.
  now destruct (existsb (key_eqb (Normalized r)) seen).
Qed.

Lemma kept_from_keys_fresh (seen : list LinkKey) (df : frame) (r : irow) :
  In r (kept_from seen df) -> ~ In (Normalized r) seen.
Proof.
  revert seen; induction df as [|x df IH]; intros seen; [easy|].
  rewrite kept_from_cons.
  destruct (in_links (Normalized x) seen) eqn:E.
  - intros H Hin; apply (IH _ H); now right.
  - intros [<-|H] Hin.
    + apply in_links_In in Hin; congruence.
    + apply (IH _ H); now right.
Qed.

Lemma kept_from_NoDup (seen : list LinkKey) (df : frame) :
  NoDup (map Normalized (kept_from seen df)).
Proof.
  revert seen; induction df as [|x df IH]; intros seen; [constructor|].
  rewrite kept_from_cons.
  destruct (in_links (Normalized x) seen); [apply IH|].
  simpl; constructor; [|apply IH].
  rewrite in_map_iff; intros [r [E Hr]].
  apply kept_from_keys_fresh in Hr; apply Hr; rewrite E; now left.
Qed.

Lemma kept_from_incl (seen : list LinkKey) (df : frame) (r : irow) :
  In r (kept_from seen df) -> In r df.
Proof.
  revert seen; induction df as [|x df IH]; intros seen; [easy|].
  rewrite kept_from_cons.
  destruct (in_links (Normalized x) seen).
  - intros H; right; eauto.
  - intros [<-|H]; [now left | right; eauto].
Qed.

Lemma kept_from_covers (seen : list LinkKey) (df : frame) (k : LinkKey) :
  In k (map Normalized df) ->
  In k seen \/ In k (map Normalized (kept_from seen df)).
Proof.
  revert seen; induction df as [|x df IH]; intros seen; [easy|].
  rewrite kept_from_cons; simpl.
  destruct (in_links (Normalized x) seen) eqn:E.
  - intros [<-|H]; [left; now apply in_links_In|].
    destruct (IH (Normalized x :: seen) H) as [[<-|Hs]|Hk]; auto.
    left; now apply in_links_In.
  - intros [<-|H]; [right; now left|].
    destruct (IH (Normalized x :: seen) H) as [[<-|Hs]|Hk]; simpl; auto.
Qed.

(** A kept row is the first of its link in the frame. *)
Lemma kept_from_first (seen : list LinkKey) (df : frame) (r : irow) :
  In r (kept_from seen df) ->
  exists before after,
    df = before ++ r :: after /\
    forall x, In x before -> Normalized x <> Normalized r.
Proof.
  revert seen; induction df as [|x df IH]; intros seen; [easy|].
  rewrite kept_from_cons.
  assert (Hlater : In r (kept_from (Normalized x :: seen) df) ->
                   exists before after,
                     x :: df = before ++ r :: after /\
                     forall y, In y before -> Normalized y <> Normalized r).
  { intros H.
    destruct (IH _ H) as [before [after [-> Hb]]].
    exists (x :: before), after; split; [reflexivity|].
    intros y [<-|Hy]; [|now apply Hb].
    intros E; apply (kept_from_keys_fresh _ _ _ H); rewrite E; now left. }
  destruct (in_links (Normalized x) seen); [exact Hlater|].
  intros [<-|H]; [|now apply Hlater].
  exists [], df; split; [reflexivity | easy].
Qed.

Lemma index_rows_from_labels (n : nat) (rs : list row) :
  map fst (combine (seq n (length rs)) rs) = seq n (length rs).
Proof.
  revert n; induction rs as [|r rs IH]; intros n; simpl; [reflexivity|].
  now rewrite IH.
Qed.

Lemma index_rows_NoDup (rs : list row) : NoDup (index_rows rs).
Proof.
  apply (NoDup_map_inv fst); unfold index_rows.
  rewrite index_rows_from_labels; apply seq_NoDup.
Qed.

Lemma by_total_priority_desc_total (x y : irow) :
  by_total_priority_desc x y = true \/ by_total_priority_desc y x = true.
Proof. unfold by_total_priority_desc; lia. Qed.

Lemma by_total_priority_desc_trans (x y z : irow) :
  by_total_priority_desc x y = true -> by_total_priority_desc y z = true ->
  by_total_priority_desc x z = true.
Proof. unfold by_total_priority_desc; lia. Qed.

Lemma NoDup_map_eq {A B : Type} (f : A -> B) (l : list A) (a b : A) :
  NoDup (map f l) -> In a l -> In b l -> f a = f b -> a = b.
Proof.
  induction l as [|x l IH]; simpl; [easy|].
  intros Hnd; inversion Hnd as [|? ? Hx Hl]; subst.
  intros [<-|Ha] [<-|Hb] E; auto.
  - exfalso; apply Hx; rewrite E; now apply in_map.
  - exfalso; apply Hx; rewrite <- E; now apply in_map.
Qed.

Lemma NoDup_app_disjoint {A : Type} (l1 l2 : list A) (x : A) :
  NoDup (l1 ++ l2) -> In x l1 -> ~ In x l2.
Proof.
  induction l1 as [|a l1 IH]; simpl; [easy|].
  intros Hnd; inversion Hnd as [|? ? Ha Hl]; subst.
  intros [<-|Hx] H2; [apply Ha, in_or_app; now right | now apply IH].
Qed.

Lemma resolver_cleaned {S : SortValues} (df : frame) :
  fst (remove_duplicate_links_with_priority df) =
  kept_from [] (sort_values by_total_priority_desc df).
Proof. reflexivity. Qed.

(** C2: the resolver splits the input into [cleaned] and [duplicates], which
    are disjoint and together hold every input row exactly once; [cleaned] has
    exactly one row for each LinkKey of the input. *)
Theorem resolver_partitions_input (S : SortValues) (rs : list row) :
  let df := index_rows rs in
  let cleaned := fst (remove_duplicate_links_with_priority df) in
  let duplicates := snd (remove_duplicate_links_with_priority df) in
  Permutation (cleaned ++ duplicates) df /\
  (forall r, In r cleaned -> ~ In r duplicates) /\
  length cleaned + length duplicates = length df /\
  NoDup (map Normalized cleaned) /\
  (forall k, In k (map Normalized cleaned) <-> In k (map Normalized df)).
Proof.
  intros df cleaned duplicates.
  set (sorted := sort_values by_total_priority_desc df).
  assert (Hsorted : Permutation sorted df) by apply sort_values_perm.
  assert (Hperm : Permutation (cleaned ++ duplicates) df).
  { rewrite <- Hsorted.
    apply (boolean_mask_partition (duplicated sorted) sorted).
    apply duplicated_from_length. }
  repeat split.
  - exact Hperm.
  - intros r; apply NoDup_app_disjoint.
    apply (Permutation_NoDup (Permutation_sym Hperm)), index_rows_NoDup.
  - rewrite <- length_app; now apply Permutation_length.
  - apply kept_from_NoDup.
  - rewrite in_map_iff; intros [r [<- Hr]].
    apply in_map, (Permutation_in _ Hsorted), (kept_from_incl _ _ _ Hr).
  - intros Hk.
    assert (Hk' : In k (map Normalized sorted)).
    { apply (Permutation_in _ (Permutation_map Normalized (Permutation_sym Hsorted))), Hk. }
    destruct (kept_from_covers [] sorted k Hk') as [[]|H]; exact H.
Qed.

Lemma StronglySorted_app_cons {A : Type} (R : A -> A -> Prop)
  (before after : list A) (x y : A) :
  StronglySorted R (before ++ x :: after) -> In y after -> R x y.
Proof.
  induction before as [|b before IH]; simpl; intros Hs Hy.
  - apply StronglySorted_inv in Hs; destruct Hs as [_ Hall].
    rewrite Forall_forall in Hall; now apply Hall.
  - apply StronglySorted_inv in Hs; destruct Hs as [Hs _]; now apply IH.
Qed.

(** The kept row of the link of a row. *)
Lemma kept_row_of_link {S : SortValues} (df : frame) (r : irow) :
  In r df ->
  exists kept,
    In kept (fst (remove_duplicate_links_with_priority df)) /\
    In kept df /\
    Normalized kept = Normalized r /\
    (Total_Priority r <= Total_Priority kept)%Z /\
    (forall kept',
        In kept' (fst (remove_duplicate_links_with_priority df)) ->
        Normalized kept' = Normalized r -> kept' = kept) /\
    (exists before after,
        sort_values by_total_priority_desc df = before ++ kept :: after /\
        forall x, In x before -> Normalized x <> Normalized r).
Proof.
  intros Hr; rewrite resolver_cleaned.
  set (sorted := sort_values by_total_priority_desc df).
  assert (Hperm : Permutation sorted df) by apply sort_values_perm.
  assert (Hss : StronglySorted (fun x y => by_total_priority_desc x y = true) sorted).
  { apply sort_values_sorted;
      [apply by_total_priority_desc_total | apply by_total_priority_desc_trans]. }
  assert (Hr' : In r sorted) by (apply (Permutation_in _ (Permutation_sym Hperm)), Hr).
  destruct (kept_from_covers [] sorted (Normalized r) (in_map _ _ _ Hr'))
    as [[]|Hk].
  apply in_map_iff in Hk; destruct Hk as [kept [Ekey Hkept]].
  destruct (kept_from_first _ _ _ Hkept) as [before [after [Esorted Hbefore]]].
  exists kept; repeat split.
  - exact Hkept.
  - apply (Permutation_in _ Hperm), (kept_from_incl _ _ _ Hkept).
  - exact Ekey.
  - rewrite Esorted in Hr', Hss.
    apply in_app_or in Hr'; destruct Hr' as [Hb|[<-|Ha]].
    + exfalso; apply (Hbefore _ Hb); congruence.
    + lia.
    + pose proof (StronglySorted_app_cons _ _ _ _ _ Hss Ha) as Hle.
      unfold by_total_priority_desc in Hle; lia.
  - intros kept' Hkept' E.
    apply (NoDup_map_eq Normalized (kept_from [] sorted));
      [apply kept_from_NoDup | assumption | assumption | congruence].
  - exists before, after; split; [exact Esorted|].
    intros x Hx; rewrite <- Ekey; now apply Hbefore.
Qed.

(** C1, as the code has it: every row of the input has, among the kept rows,
    exactly one of its LinkKey, and that row has a Total Priority at least as
    high as every row of the group; it is the row of the group that
    [sort_values] puts first, so among rows that tie on the highest Total
    Priority the sorting routine decides. *)
Theorem kept_row_has_maximal_priority (S : SortValues) (df : frame) (r : irow) :
  In r df ->
  exists kept,
    In kept (fst (remove_duplicate_links_with_priority df)) /\
    In kept df /\
    Normalized kept = Normalized r /\
    (Total_Priority r <= Total_Priority kept)%Z /\
    (forall kept',
        In kept' (fst (remove_duplicate_links_with_priority df)) ->
        Normalized kept' = Normalized r -> kept' = kept) /\
    (exists before after,
        sort_values by_total_priority_desc df = before ++ kept :: after /\
        forall x, In x before -> Normalized x <> Normalized r).
Proof. apply kept_row_of_link. Qed.

Lemma kept_row_has_maximal_priority_witness :
  exists kept,
    In kept (fst (@remove_duplicate_links_with_priority stable_sort_values tied_links)) /\
    In kept tied_links /\
    Normalized kept = Normalized tied_first /\
    (Total_Priority tied_first <= Total_Priority kept)%Z /\
    (forall kept',
        In kept' (fst (@remove_duplicate_links_with_priority stable_sort_values tied_links)) ->
        Normalized kept' = Normalized tied_first -> kept' = kept) /\
    (exists before after,
        @sort_values stable_sort_values by_total_priority_desc tied_links
        = before ++ kept :: after /\
        forall x, In x before -> Normalized x <> Normalized tied_first).
Proof.
  apply (kept_row_has_maximal_priority stable_sort_values tied_links tied_first).
  simpl; auto.
Defined.

(** C1 as stated fails on ties. On [tied_sheet] the default sort of pandas
    does not leave the tied rows in the order of the sheet: none of the four
    rows kept is the earliest of its tied rows, each has an earlier row of
    its link with the same Total Priority. *)
Lemma kept_row_on_tie_not_earliest :
  length (fst (@remove_duplicate_links_with_priority quicksort_sort_values
                 (index_rows tied_sheet))) = 4 /\
  forall kept,
    In kept (fst (@remove_duplicate_links_with_priority quicksort_sort_values
                    (index_rows tied_sheet))) ->
    exists earlier,
      In earlier (index_rows tied_sheet) /\
      Normalized earlier = Normalized kept /\
      Total_Priority earlier = Total_Priority kept /\
      fst earlier < fst kept.
Proof.
  split; [vm_compute; reflexivity|].
  intros kept Hkept.
  exists (nth (fst kept - 4) (index_rows tied_sheet) kept).
  vm_compute in Hkept.
  destruct Hkept as [<-|[<-|[<-|[<-|[]]]]]; vm_compute; repeat split; auto 20.
Qed.

(** What the routine makes of the sheet: the order of the sorted frame, and
    the rows kept, which are the last record of each link where the claim
    has [L13] to [L16]. *)
Example quicksort_on_tied_sheet :
  map (fun r => Link_ID (snd r))
    (@sort_values quicksort_sort_values by_total_priority_desc
       (index_rows tied_sheet))
  = ["L20"; "L19"; "L18"; "L17"; "L16"; "L15"; "L14"; "L13"; "L2"; "L12";
     "L1"; "L10"; "L9"; "L8"; "L7"; "L6"; "L5"; "L4"; "L3"; "L11"] /\
  map (fun r => Link_ID (snd r))
    (fst (@remove_duplicate_links_with_priority quicksort_sort_values
            (index_rows tied_sheet)))
  = ["L20"; "L19"; "L18"; "L17"].
Proof. split; vm_compute; reflexivity. Qed.

(** A stable routine keeps [L13] to [L16]. *)
Example stable_sort_on_tied_sheet :
  map (fun r => Link_ID (snd r))
    (fst (@remove_duplicate_links_with_priority stable_sort_values
            (index_rows tied_sheet)))
  = ["L13"; "L14"; "L15"; "L16"].
Proof. vm_compute; reflexivity. Qed.

(** On a sheet of few rows the routine sorts by insertion and the earliest of
    the tied rows is kept. *)
Example quicksort_on_tied_links :
  @remove_duplicate_links_with_priority quicksort_sort_values tied_links
  = ([tied_first], [tied_second]).
Proof. vm_compute; reflexivity. Qed.

(** With a stable routine the first of the two is kept. *)
Example kept_row_on_tie_stable :
  @remove_duplicate_links_with_priority stable_sort_values tied_links
  = ([tied_first], [tied_second]).
Proof. reflexivity. Qed.

(** The group of the specification's example, Total Priority 3, 1, 2 by row. *)
Example priorities_3_1_2 :
  map Total_Priority
    (index_rows
       [mkRow "R1" (Text "Eth1") "R2" NA "a";
        mkRow "R1" (Text "Gi1") "R2" NA "b";
        mkRow "R1" (Text "ae1") "R2" NA "c"])
  = [3%Z; 1%Z; 2%Z].
Proof. reflexivity. Qed.

(** ** Duplicate Port Detector *)

Lemma find_duplicate_ports_In (df : frame) (d : dup_row) :
  In d (find_duplicate_ports df) ->
  exists r,
    In r df /\
    d = mkDupRow (fst r) (snd r) (source_plus_port r) (dest_plus_port r)
          (Nat.ltb 1 (value_counts (map source_plus_port df) (source_plus_port r)))
          (Nat.ltb 1 (value_counts (map dest_plus_port df) (dest_plus_port r))).
Proof.
  unfold find_duplicate_ports; rewrite filter_In, in_map_iff.
  intros [[r [E Hr]] _]; exists r; split; [exact Hr | now symmetry].
Qed.

(** C10: rows are identified by the concatenation [device + "_" + port]
    alone. The rows ([A_B], [C]) and ([A], [B_C]) differ in device and in
    port, have the one composite key [A_B_C], are counted together and are
    both flagged; and the flags of every reported row are computed from its
    two concatenated strings and the columns of such strings. *)
Theorem duplicate_flag_is_of_the_concatenation :
  (map (fun r => (Source (snd r), Source_Port (snd r))) ambiguous_ports
   = [("A_B", Text "C"); ("A", Text "B_C")] /\
   map source_plus_port ambiguous_ports = ["A_B_C"; "A_B_C"] /\
   value_counts (map source_plus_port ambiguous_ports) "A_B_C" = 2 /\
   map (fun d => (dup_label d, Source_Port_Duplicate d, Destination_Port_Duplicate d))
     (find_duplicate_ports ambiguous_ports)
   = [(0, true, false); (1, true, false)]) /\
  (forall (df : frame) (d : dup_row),
      In d (find_duplicate_ports df) ->
      Source_Port_Duplicate d
      = Nat.ltb 1 (value_counts (map source_plus_port df) (Source_plus_Port d)) /\
      Destination_Port_Duplicate d
      = Nat.ltb 1 (value_counts (map dest_plus_port df) (Dest_plus_Port d))).
Proof.
  split; [repeat split|].
  intros df d Hd.
  destruct (find_duplicate_ports_In df d Hd) as [r [_ ->]]; simpl; auto.
Qed.

(** Two rows with the same source device and port are both flagged. *)
Example same_source_port_flagged :
  map (fun d => (dup_label d, Source_Port_Duplicate d, Destination_Port_Duplicate d))
    (find_duplicate_ports
       (index_rows
          [mkRow "R1" (Text "Eth1/1") "R3" (Text "Eth3/1") "L1";
           mkRow "R1" (Text "Eth1/1") "R4" (Text "Eth4/1") "L2"]))
  = [(0, true, false); (1, true, false)].
Proof. reflexivity. Qed.

(** ** Validation of the required columns *)

Lemma missing_columns_In (required : list string) (db : DataFrame) (c : string) :
  In c (missing_columns required db) <-> In c required /\ has_column db c = false.
Proof.
  unfold missing_columns; now rewrite filter_In, negb_true_iff.
Qed.

Lemma missing_columns_remove_nonempty (db : DataFrame) :
  missing_columns required_cols db <> [] ->
  missing_columns required_cols_remove db <> [].
Proof.
  unfold missing_columns, required_cols, required_cols_remove; simpl.
  destruct (has_column db "Source"), (has_column db "Source Port"),
    (has_column db "Destination"), (has_column db "Destination Port");
    simpl; congruence.
Qed.

Lemma is_empty_false {A : Type} (l : list A) : l <> [] -> is_empty l = false.
Proof. destruct l; [congruence | reflexivity]. Qed.

Lemma is_empty_true {A : Type} (l : list A) : l = [] -> is_empty l = true.
Proof. now intros ->. Qed.

Lemma check_required_two (a b : DataFrame) (na nb : string) :
  check_required [(a, na); (b, nb)] =
  if negb (is_empty (missing_columns required_cols a))
  then Some (named_missing_message na (missing_columns required_cols a))
  else if negb (is_empty (missing_columns required_cols b))
       then Some (named_missing_message nb (missing_columns required_cols b))
       else None.
Proof. reflexivity. Qed.

(** C9, as the code has it: on a dataset that, after canonicalization, lacks
    a required column every panel ends with an error message and shows no
    report. The one-dataset panels name all its missing columns. The
    two-dataset Link Analysis checks Main and then Match and stops at the
    first that lacks a column: it names all missing columns of Main when Main
    lacks some, and those of Match only when Main is complete. *)
Theorem missing_columns_abort (S : SortValues) (O : SetOrder)
  (db other : DataFrame) :
  missing_columns required_cols (canonicalize_columns db) <> [] ->
  duplicate_port_finder db
  = Error (missing_message
             (missing_columns required_cols (canonicalize_columns db))) /\
  remove_duplicate_links db
  = Error (missing_message
             (missing_columns required_cols_remove (canonicalize_columns db))) /\
  link_analysis db other
  = ErrorStop (named_missing_message "Main"
                 (missing_columns required_cols (canonicalize_columns db))) /\
  link_analysis other db
  = ErrorStop
      (if is_empty (missing_columns required_cols (canonicalize_columns other))
       then named_missing_message "Match"
              (missing_columns required_cols (canonicalize_columns db))
       else named_missing_message "Main"
              (missing_columns required_cols (canonicalize_columns other))) /\
  (forall c, In c required_cols ->
             has_column (canonicalize_columns db) c = false ->
             In c (missing_columns required_cols (canonicalize_columns db)) /\
             In c (missing_columns required_cols_remove (canonicalize_columns db))).
Proof.
  intros Hmiss.
  pose proof (missing_columns_remove_nonempty _ Hmiss) as Hmiss'.
  repeat split.
  - unfold duplicate_port_finder; now rewrite (is_empty_false _ Hmiss).
  - unfold remove_duplicate_links; now rewrite (is_empty_false _ Hmiss').
  - unfold link_analysis; rewrite check_required_two.
    now rewrite (is_empty_false _ Hmiss).
  - unfold link_analysis; rewrite check_required_two.
    rewrite (is_empty_false _ Hmiss).
    now destruct (is_empty (missing_columns required_cols (canonicalize_columns other))).
  - now apply missing_columns_In.
  - apply missing_columns_In; split; [|assumption].
    unfold required_cols in H; unfold required_cols_remove; simpl in *; tauto.
Qed.

Lemma missing_columns_abort_witness :
  duplicate_port_finder match_without_destination
  = Error (missing_message
             (missing_columns required_cols
                (canonicalize_columns match_without_destination))) /\
  @remove_duplicate_links stable_sort_values match_without_destination
  = Error (missing_message
             (missing_columns required_cols_remove
                (canonicalize_columns match_without_destination))) /\
  @link_analysis stable_sort_values insertion_order
    match_without_destination main_without_source
  = ErrorStop (named_missing_message "Main"
                 (missing_columns required_cols
                    (canonicalize_columns match_without_destination))) /\
  @link_analysis stable_sort_values insertion_order
    main_without_source match_without_destination
  = ErrorStop
      (if is_empty (missing_columns required_cols
                      (canonicalize_columns main_without_source))
       then named_missing_message "Match"
              (missing_columns required_cols
                 (canonicalize_columns match_without_destination))
       else named_missing_message "Main"
              (missing_columns required_cols
                 (canonicalize_columns main_without_source))) /\
  (forall c, In c required_cols ->
             has_column (canonicalize_columns match_without_destination) c = false ->
             In c (missing_columns required_cols
                     (canonicalize_columns match_without_destination)) /\
             In c (missing_columns required_cols_remove
                     (canonicalize_columns match_without_destination))).
Proof.
  apply (missing_columns_abort stable_sort_values insertion_order
           match_without_destination main_without_source).
  vm_compute; discriminate.
Defined.

(** C9 as stated fails for the Match frame when Main lacks a column too:
    Link Analysis stops at Main and the message does not name [Destination],
    the column Match lacks. *)
Lemma link_analysis_reports_main_only :
  columns (canonicalize_columns main_without_source)
  = ["Source Port"; "Destination"; "Destination Port"] /\
  columns (canonicalize_columns match_without_destination)
  = ["Source"; "Source Port"; "Destination Port"] /\
  missing_columns required_cols (canonicalize_columns main_without_source)
  = ["Source"] /\
  missing_columns required_cols (canonicalize_columns match_without_destination)
  = ["Destination"] /\
  @link_analysis stable_sort_values insertion_order
    main_without_source match_without_destination
  = ErrorStop "Main missing columns: Source" /\
  PyStr.contains "Destination" "Main missing columns: Source" = false.
Proof.
  repeat split.
Qed.

(** ** Cross-Dataset Matcher *)

Lemma Normalized_link_of (r : irow) : Normalized r = link_of (snd r).
Proof. reflexivity. Qed.

Lemma map_snd_combine_seq (n : nat) (rs : list row) :
  map snd (combine (seq n (length rs)) rs) = rs.
Proof.
  revert n; induction rs as [|r rs IH]; intros n; simpl; [reflexivity|].
  now rewrite IH.
Qed.

Lemma map_snd_index_rows (rs : list row) : map snd (index_rows rs) = rs.
Proof. apply map_snd_combine_seq. Qed.

Lemma map_Normalized (df : frame) :
  map Normalized df = map link_of (map snd df).
Proof. rewrite map_map; apply map_ext; intros r; apply Normalized_link_of. Qed.

Lemma sort_by_link_keys {S : SortValues} (df : frame) :
  Permutation (map Normalized (sort_by_link df)) (map Normalized df).
Proof.
  unfold sort_by_link, reset_index.
  rewrite (map_Normalized (index_rows _)), map_snd_index_rows, <- map_Normalized.
  apply Permutation_map, sort_values_perm.
Qed.

Lemma rows_of_link_nonempty (df : frame) (k : LinkKey) :
  In k (map Normalized df) -> rows_of_link df k <> [].
Proof.
  rewrite in_map_iff; intros [r [E Hr]] Hnil.
  assert (H : In r (rows_of_link df k)).
  { unfold rows_of_link; rewrite filter_In; split; [exact Hr|].
    now apply key_eqb_eq. }
  rewrite Hnil in H; exact H.
Qed.

(** One pass of the loop body on a key of the frame appends one record, which
    carries the key and its status. *)
Lemma analyse_link_record (main_df : frame) (match_links : list LinkKey)
  (k : LinkKey) :
  In k (map Normalized main_df) ->
  exists a,
    fst (analyse_link main_df match_links k) = [a] /\
    an_Normalized_Link a = k /\
    an_Match_Status a = (if in_links k match_links then "Found" else "Missing").
Proof.
  intros Hk; apply rows_of_link_nonempty in Hk.
  unfold analyse_link.
  destruct (rows_of_link main_df k) as [|original rest]; [congruence|].
  destruct (get_preferred_ports main_df (Source (snd original))
              (Destination (snd original))) as [cs cd].
  eexists; repeat split.
Qed.

Lemma analysis_of_other_keys (main_df : frame) (match_links : list LinkKey)
  (k : LinkKey) (keys : list LinkKey) :
  ~ In k keys ->
  filter (fun a => key_eqb (an_Normalized_Link a) k)
    (flat_map (fun k' => fst (analyse_link main_df match_links k')) keys) = [].
Proof.
  induction keys as [|k' keys IH]; simpl; [reflexivity|].
  intros Hk; rewrite filter_app, IH by tauto.
  rewrite app_nil_r.
  unfold analyse_link.
  destruct (rows_of_link main_df k') as [|original rest]; [reflexivity|].
  destruct (get_preferred_ports main_df (Source (snd original))
              (Destination (snd original))) as [cs cd]; simpl.
  assert (E : key_eqb k' k = false) by (apply key_eqb_neq; tauto).
  now rewrite E.
Qed.

Lemma analysis_of_key (main_df : frame) (match_links : list LinkKey)
  (k : LinkKey) (keys : list LinkKey) :
  NoDup keys -> In k keys -> In k (map Normalized main_df) ->
  filter (fun a => key_eqb (an_Normalized_Link a) k)
    (flat_map (fun k' => fst (analyse_link main_df match_links k')) keys)
  = fst (analyse_link main_df match_links k).
Proof.
  intros Hnd Hin Hk.
  induction Hnd as [|k' keys Hk' Hnd IH]; [easy|].
  simpl; rewrite filter_app.
  destruct Hin as [->|Hin].
  - rewrite analysis_of_other_keys, app_nil_r by exact Hk'.
    destruct (analyse_link_record main_df match_links k Hk) as [a [-> [Ha _]]].
    simpl; now rewrite Ha, key_eqb_refl.
  - rewrite (IH Hin).
    assert (E : key_eqb k' k = false) by (apply key_eqb_neq; congruence).
    unfold analyse_link at 1.
    destruct (rows_of_link main_df k') as [|original rest]; [reflexivity|].
    destruct (get_preferred_ports main_df (Source (snd original))
                (Destination (snd original))) as [cs cd]; simpl.
    now rewrite E.
Qed.

(** The matcher loop on its own: it makes exactly one record for every
    distinct LinkKey of dataset A, and the Match Status of the record is
    [Missing] if and only if the key is not among the LinkKeys of dataset B
    (otherwise it is [Found]). *)
Lemma matcher_one_record_per_link (S : SortValues) (O : SetOrder)
  (A B : list row) (k : LinkKey) :
  In k (map link_of A) ->
  exists a,
    filter (fun a' => key_eqb (an_Normalized_Link a') k)
      (analysis_results (sort_by_link (index_rows A)) (sort_by_link (index_rows B)))
    = [a] /\
    an_Normalized_Link a = k /\
    (an_Match_Status a = "Missing" <-> ~ In k (map link_of B)) /\
    (an_Match_Status a = "Found" <-> In k (map link_of B)).
Proof.
  intros Hk.
  set (main_df := sort_by_link (index_rows A)).
  set (match_df := sort_by_link (index_rows B)).
  assert (Hmain : In k (map Normalized main_df)).
  { apply (Permutation_in _ (Permutation_sym (sort_by_link_keys _))).
    now rewrite map_Normalized, map_snd_index_rows. }
  assert (Hmatch : In k (map Normalized match_df) <-> In k (map link_of B)).
  { rewrite <- (map_snd_index_rows B), <- map_Normalized.
    split; apply Permutation_in;
      [apply sort_by_link_keys | apply Permutation_sym, sort_by_link_keys]. }
  destruct (analyse_link_record main_df (map Normalized match_df) k Hmain)
    as [a [Ea [Hkey Hstatus]]].
  exists a; split; [|split; [exact Hkey|]].
  - unfold analysis_results.
    rewrite analysis_of_key;
      [exact Ea | apply set_iter_NoDup | now apply set_iter_In | exact Hmain].
  - rewrite Hstatus, <- Hmatch, <- in_links_In.
    destruct (in_links k (map Normalized match_df)); split;
      intros; try congruence; try discriminate; split; congruence.
Qed.

(** Two rows: whatever the sorting routine, the frame comes back in one of
    the two orders, with fresh index labels. *)
Lemma sort_by_link_two {S : SortValues} (a b : row) :
  sort_by_link (index_rows [a; b]) = index_rows [a; b] \/
  sort_by_link (index_rows [a; b]) = index_rows [b; a].
Proof.
  unfold sort_by_link.
  pose proof (sort_values_perm
                (fun x y => key_leb (Normalized x) (Normalized y))
                (index_rows [a; b])) as Hperm.
  apply Permutation_sym, Permutation_length_2_inv in Hperm.
  destruct Hperm as [E|E]; rewrite E; [left | right]; reflexivity.
Qed.

(** C4 fails on a validated pair of sheets. The Main sheet
    [missing_source_port] has the four required columns and holds the link
    [R1]-[R2] twice, the source port cell empty in both rows. The
    port-correction loop, which runs before the matcher loop in the same
    [try] block, tests the truth of the preferred source port, [pd.NA], and
    raises: whatever the sorting routine, the set order and the (validated)
    Match sheet, the panel shows the error message alone, and the Main
    Analysis has no record for [R1]-[R2]. *)
Theorem link_analysis_fails_on_missing_port (S : SortValues) (O : SetOrder)
  (match_db : DataFrame) :
  missing_columns required_cols (canonicalize_columns match_db) = [] ->
  missing_columns required_cols
    (canonicalize_columns (mkDataFrame required_cols missing_source_port)) = [] /\
  In ("R1", "R2") (map link_of missing_source_port) /\
  link_analysis (mkDataFrame required_cols missing_source_port) match_db
  = Error "Error: boolean value of NA is ambiguous".
Proof.
  intros Hmatch; split; [reflexivity | split; [now left|]].
  unfold link_analysis.
  rewrite check_required_two, Hmatch.
  change (missing_columns required_cols
            (canonicalize_columns (mkDataFrame required_cols missing_source_port)))
    with (@nil string).
  cbn [is_empty negb].
  change (rows (canonicalize_columns (mkDataFrame required_cols missing_source_port)))
    with [mkRow "R1" NA "R2" (Text "Gi0/1") "L1";
          mkRow "R1" NA "R2" (Text "Gi0/2") "L2"].
  destruct (sort_by_link_two (mkRow "R1" NA "R2" (Text "Gi0/1") "L1")
              (mkRow "R1" NA "R2" (Text "Gi0/2") "L2")) as [E|E];
    rewrite E; reflexivity.
Qed.

Lemma link_analysis_fails_on_missing_port_witness :
  missing_columns required_cols
    (canonicalize_columns (mkDataFrame required_cols missing_source_port)) = [] /\
  In ("R1", "R2") (map link_of missing_source_port) /\
  @link_analysis stable_sort_values insertion_order
    (mkDataFrame required_cols missing_source_port)
    (mkDataFrame required_cols only_in_main)
  = Error "Error: boolean value of NA is ambiguous".
Proof.
  apply (link_analysis_fails_on_missing_port stable_sort_values insertion_order
           (mkDataFrame required_cols only_in_main)).
  reflexivity.
Defined.

(** With the port cells filled in, the same link has its one record. *)
Example one_record_for_the_link :
  map (fun a => (an_Link_Name a, an_Match_Status a))
    (@analysis_results insertion_order
       (@sort_by_link stable_sort_values (index_rows eth_then_ae))
       (@sort_by_link stable_sort_values (index_rows only_in_main)))
  = [("R1 to R2", "Found")].
Proof. reflexivity. Qed.

(** The link appears in Missing Links with the ports the resolver suggests. *)
Example missing_link_reported :
  @missing_results insertion_order
    (@sort_by_link stable_sort_values (index_rows only_in_main))
    (@sort_by_link stable_sort_values (index_rows []))
  = [mkMissing "R1 to R2" "R1" (Some (Text "Eth1/1")) "R2"
       (Some (Text "Eth2/1")) ("R1", "R2")].
Proof. reflexivity. Qed.

(** *** The order of LinkKeys *)

Lemma ascii_compare_refl (a : ascii) : Ascii.compare a a = Eq.
Proof. apply N.compare_refl. Qed.

Lemma ascii_compare_lt_trans (a b c : ascii) :
  Ascii.compare a b = Lt -> Ascii.compare b c = Lt -> Ascii.compare a c = Lt.
Proof.
  unfold Ascii.compare; rewrite !N.compare_lt_iff; apply N.lt_trans.
Qed.

Lemma string_compare_refl (s : string) : String.compare s s = Eq.
Proof.
  induction s as [|a s IH]; simpl; [reflexivity|].
  now rewrite ascii_compare_refl.
Qed.

Lemma string_compare_lt_trans (s t u : string) :
  String.compare s t = Lt -> String.compare t u = Lt -> String.compare s u = Lt.
Proof.
  revert t u; induction s as [|a s IH]; intros [|b t] [|c u]; simpl;
    try discriminate; auto.
  destruct (Ascii.compare a b) eqn:Eab; try discriminate;
    destruct (Ascii.compare b c) eqn:Ebc; try discriminate; intros H1 H2.
  - apply Ascii.compare_eq_iff in Eab, Ebc; subst.
    rewrite ascii_compare_refl; eauto.
  - apply Ascii.compare_eq_iff in Eab; subst; now rewrite Ebc.
  - apply Ascii.compare_eq_iff in Ebc; subst; now rewrite Eab.
  - now rewrite (ascii_compare_lt_trans a b c).
Qed.

Lemma string_ltb_lt (s t : string) :
  String.ltb s t = true <-> String.compare s t = Lt.
Proof. unfold String.ltb; destruct (String.compare s t); split; congruence. Qed.

Lemma string_leb_cases (s t : string) :
  String.leb s t = true <-> String.compare s t = Lt \/ s = t.
Proof.
  unfold String.leb; destruct (String.compare s t) eqn:E; split;
    auto; try discriminate.
  - intros _; right; now apply String.compare_eq_iff.
  - intros [H|H]; [discriminate | subst].
    rewrite string_compare_refl in E; discriminate.
Qed.

Lemma string_leb_trans (s t u : string) :
  String.leb s t = true -> String.leb t u = true -> String.leb s u = true.
Proof.
  rewrite !string_leb_cases; intros [H1| ->] [H2| ->]; auto.
  left; now apply string_compare_lt_trans with t.
Qed.

Lemma key_leb_cases (a b : LinkKey) :
  key_leb a b = true <->
  String.compare (fst a) (fst b) = Lt
  \/ (fst a = fst b /\ String.leb (snd a) (snd b) = true).
Proof.
  unfold key_leb.
  now rewrite orb_true_iff, andb_true_iff, string_ltb_lt, String.eqb_eq.
Qed.

Lemma key_leb_total (a b : LinkKey) : key_leb a b = true \/ key_leb b a = true.
Proof.
  rewrite !key_leb_cases.
  destruct (String.compare (fst a) (fst b)) eqn:E.
  - apply String.compare_eq_iff in E.
    destruct (String.leb_total (snd a) (snd b)); auto.
  - auto.
  - right; left; rewrite String.compare_antisym, E; reflexivity.
Qed.

Lemma key_leb_trans (a b c : LinkKey) :
  key_leb a b = true -> key_leb b c = true -> key_leb a c = true.
Proof.
  rewrite !key_leb_cases; intros [H1|[E1 H1]] [H2|[E2 H2]].
  - left; now apply string_compare_lt_trans with (fst b).
  - left; now rewrite <- E2.
  - left; now rewrite E1.
  - right; split; [congruence | now apply string_leb_trans with (snd b)].
Qed.

Lemma insert_key_perm (k : LinkKey) (l : list LinkKey) :
  Permutation (insert_key k l) (k :: l).
Proof.
  induction l as [|a l IH]; simpl; [reflexivity|].
  destruct (key_leb k a); [reflexivity|].
  rewrite IH; apply perm_swap.
Qed.

Lemma sort_keys_perm (keys : list LinkKey) : Permutation (sort_keys keys) keys.
Proof.
  induction keys as [|k keys IH]; simpl; [reflexivity|].
  rewrite insert_key_perm; now constructor.
Qed.

Lemma insert_key_sorted (k : LinkKey) (l : list LinkKey) :
  StronglySorted (fun a b => key_leb a b = true) l ->
  StronglySorted (fun a b => key_leb a b = true) (insert_key k l).
Proof.
  induction 1 as [|a l Hl IH Ha]; simpl; [repeat constructor|].
  destruct (key_leb k a) eqn:E.
  - constructor; [now constructor|].
    constructor; [exact E|].
    eapply Forall_impl; [|exact Ha].
    intros z Hz; now apply key_leb_trans with a.
  - constructor; [exact IH|].
    apply Forall_forall; intros z Hz.
    apply (Permutation_in _ (insert_key_perm k l)) in Hz.
    destruct Hz as [<-|Hz].
    + destruct (key_leb_total k a); congruence.
    + rewrite Forall_forall in Ha; now apply Ha.
Qed.

Lemma sort_keys_sorted (keys : list LinkKey) :
  StronglySorted (fun a b => key_leb a b = true) (sort_keys keys).
Proof.
  induction keys as [|k keys IH]; simpl; [constructor|].
  now apply insert_key_sorted.
Qed.

(** The distinct keys of a frame, ascending: the order of [groupby]. *)
Lemma group_keys_In (df : frame) (k : LinkKey) :
  In k (sort_keys (unique (map Normalized df))) <-> In k (map Normalized df).
Proof.
  split; intros H.
  - apply unique_In, (Permutation_in _ (sort_keys_perm _)), H.
  - apply (Permutation_in _ (Permutation_sym (sort_keys_perm _))), unique_In, H.
Qed.

Lemma group_keys_NoDup (df : frame) :
  NoDup (sort_keys (unique (map Normalized df))).
Proof.
  apply (Permutation_NoDup (Permutation_sym (sort_keys_perm _))), unique_NoDup.
Qed.

(** *** The order of the Main Analysis *)

Lemma analysis_keys (main_df : frame) (match_links keys : list LinkKey) :
  (forall k, In k keys -> In k (map Normalized main_df)) ->
  map an_Normalized_Link
    (flat_map (fun k => fst (analyse_link main_df match_links k)) keys)
  = keys.
Proof.
  induction keys as [|k keys IH]; intros Hkeys; simpl; [reflexivity|].
  rewrite map_app, IH by (intros k' Hk'; apply Hkeys; now right).
  destruct (analyse_link_record main_df match_links k (Hkeys k (or_introl eq_refl)))
    as [a [-> [Ha _]]].
  simpl; now rewrite Ha.
Qed.

(** The records the matcher loop makes follow the iteration order of the set
    of A's LinkKeys, one record for each key. That order is a rearrangement of
    the ascending sequence of the distinct keys; the pre-sort of the frame
    does not fix it. *)
Lemma analysis_follows_set_order (S : SortValues) (O : SetOrder)
  (A B : list row) :
  map an_Normalized_Link
    (analysis_results (sort_by_link (index_rows A)) (sort_by_link (index_rows B)))
  = set_iter (map Normalized (sort_by_link (index_rows A))) /\
  Permutation
    (map an_Normalized_Link
       (analysis_results (sort_by_link (index_rows A)) (sort_by_link (index_rows B))))
    (sort_keys (unique (map link_of A))) /\
  StronglySorted (fun a b => key_leb a b = true)
    (sort_keys (unique (map link_of A))).
Proof.
  assert (E : map an_Normalized_Link
                (analysis_results (sort_by_link (index_rows A))
                   (sort_by_link (index_rows B)))
              = set_iter (map Normalized (sort_by_link (index_rows A)))).
  { unfold analysis_results; apply analysis_keys.
    intros k; apply set_iter_In. }
  split; [exact E | split; [|apply sort_keys_sorted]].
  rewrite E; apply NoDup_Permutation.
  - apply set_iter_NoDup.
  - apply (Permutation_NoDup (Permutation_sym (sort_keys_perm _))), unique_NoDup.
  - intros k; rewrite set_iter_In.
    rewrite <- (map_snd_index_rows A) at 2; rewrite <- map_Normalized.
    rewrite group_keys_In.
    split; apply Permutation_in;
      [apply sort_by_link_keys | apply Permutation_sym, sort_by_link_keys].
Qed.

(** Two rows that are in order: every sorting routine returns them as they
    are. *)
Lemma sort_by_link_in_order {S : SortValues} (a b : row) :
  key_leb (link_of b) (link_of a) = false ->
  sort_by_link (index_rows [a; b]) = index_rows [a; b].
Proof.
  intros Hab; unfold sort_by_link.
  set (leb := fun x y : irow => key_leb (Normalized x) (Normalized y)).
  pose proof (sort_values_perm leb (index_rows [a; b])) as Hperm.
  assert (Hsorted : StronglySorted (fun x y => leb x y = true)
                      (sort_values leb (index_rows [a; b]))).
  { apply sort_values_sorted; unfold leb.
    - intros x y; apply key_leb_total.
    - intros x y z; apply key_leb_trans. }
  apply Permutation_sym, Permutation_length_2_inv in Hperm.
  destruct Hperm as [E|E]; rewrite E in *; [reflexivity|].
  apply StronglySorted_inv in Hsorted; destruct Hsorted as [_ Hall].
  apply Forall_inv in Hall; unfold leb in Hall.
  change (key_leb (link_of b) (link_of a) = true) in Hall; congruence.
Qed.

(** C5 fails on the sheet [two_links], used as Main and as Match, in a process
    whose set hands out [R3]-[R4] before [R1]-[R2]. The frame is sorted by
    LinkKey ([R1]-[R2] first) whatever the sorting routine, the panel shows
    its reports, and the Main Analysis lists [R3]-[R4] first: the records are
    not in ascending order of the keys. *)
Theorem analysis_not_in_link_order (S : SortValues) :
  map Normalized (sort_by_link (index_rows two_links))
  = [("R1", "R2"); ("R3", "R4")] /\
  (exists reports,
      @link_analysis S reverse_order
        (mkDataFrame required_cols two_links) (mkDataFrame required_cols two_links)
      = Shown reports /\
      map an_Link_Name (analysis_df reports) = ["R3 to R4"; "R1 to R2"] /\
      map an_Normalized_Link (analysis_df reports)
      = [("R3", "R4"); ("R1", "R2")]) /\
  key_leb ("R3", "R4") ("R1", "R2") = false.
Proof.
  assert (E : sort_by_link (index_rows two_links) = index_rows two_links)
    by (apply sort_by_link_in_order; reflexivity).
  split; [now rewrite E | split; [|reflexivity]].
  unfold link_analysis.
  change (check_required
            [(canonicalize_columns (mkDataFrame required_cols two_links), "Main");
             (canonicalize_columns (mkDataFrame required_cols two_links), "Match")])
    with (@None string).
  change (rows (canonicalize_columns (mkDataFrame required_cols two_links)))
    with two_links.
  rewrite E.
  eexists; split; [reflexivity | split; reflexivity].
Qed.

(** With a set that hands the keys out in order of insertion the same sheet
    gives the records in ascending order. *)
Example analysis_in_insertion_order :
  map an_Normalized_Link
    (@analysis_results insertion_order
       (@sort_by_link stable_sort_values (index_rows two_links))
       (@sort_by_link stable_sort_values (index_rows two_links)))
  = [("R1", "R2"); ("R3", "R4")].
Proof. reflexivity. Qed.

(** ** Duplicate Links Summary *)

(** Two rows, the second ranked strictly before the first: every sorting
    routine returns them swapped. *)
Lemma sort_values_two {S : SortValues} (leb : irow -> irow -> bool) (a b : irow) :
  (forall x y, leb x y = true \/ leb y x = true) ->
  (forall x y z, leb x y = true -> leb y z = true -> leb x z = true) ->
  leb a b = false ->
  sort_values leb [a; b] = [b; a].
Proof.
  intros Htotal Htrans Hab.
  pose proof (sort_values_perm leb [a; b]) as Hperm.
  pose proof (sort_values_sorted leb [a; b] Htotal Htrans) as Hsorted.
  apply Permutation_sym, Permutation_length_2_inv in Hperm.
  destruct Hperm as [E|E]; [|exact E].
  rewrite E in Hsorted.
  apply StronglySorted_inv in Hsorted; destruct Hsorted as [_ Hall].
  apply Forall_inv in Hall; congruence.
Qed.

Lemma resolver_two {S : SortValues} (a b : irow) :
  by_total_priority_desc a b = false ->
  remove_duplicate_links_with_priority [a; b]
  = (drop_duplicates [b; a], boolean_mask (duplicated [b; a]) [b; a]).
Proof.
  intros Hab; unfold remove_duplicate_links_with_priority.
  now rewrite (sort_values_two by_total_priority_desc a b
                 by_total_priority_desc_total by_total_priority_desc_trans Hab).
Qed.

Lemma remove_duplicate_links_shown {S : SortValues} (db : DataFrame)
  (df cleaned duplicates : frame) (summary : list summary_row) :
  missing_columns required_cols_remove (canonicalize_columns db) = [] ->
  (if has_column (canonicalize_columns db) "Link ID"
   then index_rows (rows (canonicalize_columns db))
   else synthesize_link_ids (index_rows (rows (canonicalize_columns db)))) = df ->
  remove_duplicate_links_with_priority df = (cleaned, duplicates) ->
  summary_data df = Ok summary ->
  remove_duplicate_links db = Shown (mkDedupReports cleaned duplicates summary).
Proof.
  intros Hmiss Hdf Hres Hsum; unfold remove_duplicate_links.
  now rewrite Hmiss, Hdf, Hres, Hsum.
Qed.

(** C3 on [ae_then_eth]: the resolver keeps [L2], the row of higher Total
    Priority, and removes [L1]; the summary takes the first row of the frame
    for the kept one and lists [L2] under To Be Removed. *)
Theorem summary_lists_kept_row_for_removal (S : SortValues) :
  remove_duplicate_links ae_then_eth
  = Shown
      (mkDedupReports
         [(1, mkRow "R2" (Text "Eth2/1") "R1" (Text "Eth1/1") "L2")]
         [(0, mkRow "R1" (Text "ae1") "R2" (Text "ae2") "L1")]
         [mkSummary "R1 to R2" "L1, L2" "R1" (Text "ae1") "R2" (Text "ae2") "L2"]).
Proof.
  apply (remove_duplicate_links_shown ae_then_eth
           [(0, mkRow "R1" (Text "ae1") "R2" (Text "ae2") "L1");
            (1, mkRow "R2" (Text "Eth2/1") "R1" (Text "Eth1/1") "L2")]);
    try reflexivity.
  now rewrite resolver_two.
Qed.

(** The summary compares Link IDs, not rows: when the rows of a group carry
    one Link ID, nothing is listed although a row is removed. *)
Example summary_none_with_shared_link_id :
  @remove_duplicate_links stable_sort_values
    (mkDataFrame
       ["Link ID"; "Source"; "Source Port"; "Destination"; "Destination Port"]
       [mkRow "R1" (Text "ae1") "R2" (Text "ae2") "L1";
        mkRow "R1" (Text "ae3") "R2" (Text "ae4") "L1"])
  = Shown
      (mkDedupReports
         [(0, mkRow "R1" (Text "ae1") "R2" (Text "ae2") "L1")]
         [(1, mkRow "R1" (Text "ae3") "R2" (Text "ae4") "L1")]
         [mkSummary "R1 to R2" "L1, L1" "R1" (Text "ae1") "R2" (Text "ae2") "None"]).
Proof. reflexivity. Qed.

(** Without a [Link ID] column the rows are named by position. *)
Example summary_synthesized_ids :
  option_map (map sm_Link_IDs)
    (match @remove_duplicate_links stable_sort_values
             (mkDataFrame
                ["Source"; "Source Port"; "Destination"; "Destination Port"]
                (rows ae_then_eth)) with
     | Shown reports => Some (summary_df reports)
     | _ => None
     end)
  = Some ["Row 1, Row 2"].
Proof. reflexivity. Qed.

(** ** Port Correction Analyzer *)

Lemma corrected_str_present (p : option value) :
  p <> Some NA -> corrected_str p = Ok (rendered p).
Proof.
  destruct p as [[|s|s nonzero]|]; simpl; try congruence; intros _.
  - unfold corrected_str; simpl; now destruct (String.eqb s "").
  - unfold corrected_str; simpl; now destruct nonzero.
  - reflexivity.
Qed.

Lemma correct_rows_present (src dst : string) (cs cd : option value)
  (group : frame) :
  cs <> Some NA -> cd <> Some NA ->
  correct_rows src dst cs cd group
  = Ok (map (correction_of src dst (cs, cd)) (filter (differs (cs, cd)) group)).
Proof.
  intros Hs Hd; induction group as [|r group IH]; simpl; [reflexivity|].
  rewrite (corrected_str_present cs Hs), (corrected_str_present cd Hd), IH; simpl.
  unfold differs at 2; simpl.
  now destruct (negb (String.eqb (orig_src r) (rendered cs))
                || negb (String.eqb (orig_dst r) (rendered cd))).
Qed.

Lemma rows_of_link_In (df : frame) (k : LinkKey) (r : irow) :
  In r (rows_of_link df k) <-> In r df /\ Normalized r = k.
Proof. unfold rows_of_link; now rewrite filter_In, key_eqb_eq. Qed.

Lemma correct_group_present (main_df : frame) (k : LinkKey) :
  corrected_present main_df ->
  correct_group main_df (rows_of_link main_df k) = Ok (group_records main_df k).
Proof.
  intros Hpresent; unfold correct_group, group_records, group_corrected.
  destruct (Nat.ltb 1 (length (rows_of_link main_df k))) eqn:Hlen; [|reflexivity].
  destruct (rows_of_link main_df k) as [|sample_row rest] eqn:Hgroup; [reflexivity|].
  assert (Hin : In sample_row (rows_of_link main_df k))
    by (rewrite Hgroup; now left).
  apply rows_of_link_In in Hin; destruct Hin as [Hin Hkey].
  specialize (Hpresent sample_row Hin).
  unfold group_corrected in Hpresent; rewrite Hkey, Hgroup in Hpresent.
  apply Nat.ltb_lt in Hlen.
  destruct (get_preferred_ports main_df (Source (snd sample_row))
              (Destination (snd sample_row))) as [cs cd].
  destruct (Hpresent Hlen) as [Hs Hd].
  now apply correct_rows_present.
Qed.

Lemma correct_groups_present (main_df : frame) (keys : list LinkKey) :
  corrected_present main_df ->
  correct_groups main_df (map (fun k => (k, rows_of_link main_df k)) keys)
  = Ok (flat_map (group_records main_df) keys).
Proof.
  intros Hpresent; induction keys as [|k keys IH]; simpl; [reflexivity|].
  now rewrite (correct_group_present main_df k Hpresent), IH.
Qed.

Lemma port_corrections_present (main_df : frame) :
  corrected_present main_df ->
  port_corrections main_df
  = Ok (flat_map (group_records main_df)
          (sort_keys (unique (map Normalized main_df)))).
Proof. apply correct_groups_present. Qed.



Lemma differs_true (corr : option value * option value) (r : irow) :
  differs corr r = true <->
  orig_src r <> rendered (fst corr) \/ orig_dst r <> rendered (snd corr).
Proof.
  unfold differs.
  now rewrite orb_true_iff, !negb_true_iff, !String.eqb_neq.
Qed.



(** One correction, for the second row, with the [Eth] ports. *)
Example eth_then_ae_corrections :
  port_corrections (index_rows eth_then_ae)
  = Ok [(1, mkCorrection "R1 to R2" "R1" "ae1" "Eth1/1" "R2" "ae2" "Eth2/1"
              true "Port Mismatch")].
Proof. reflexivity. Qed.

(** A link with a single row has no correction. *)
Example single_row_no_correction :
  port_corrections (index_rows only_in_main) = Ok [].
Proof. reflexivity. Qed.


(** * Further properties of the code *)

(** ** String methods *)

Lemma append_empty_r (s : string) : String.append s EmptyString = s.
Proof. induction s as [|c s IH]; simpl; [reflexivity | now rewrite IH]. Qed.

Lemma append_assoc (s t u : string) :
  String.append (String.append s t) u = String.append s (String.append t u).
Proof. induction s as [|c s IH]; simpl; [reflexivity | now rewrite IH]. Qed.

Lemma lower_ascii_idempotent (c : ascii) :
  PyStr.lower_ascii (PyStr.lower_ascii c) = PyStr.lower_ascii c.
Proof. destruct c as [[] [] [] [] [] [] [] []]; reflexivity. Qed.

Lemma lower_idempotent (s : string) : PyStr.lower (PyStr.lower s) = PyStr.lower s.
Proof.
  induction s as [|c s IH]; simpl; [reflexivity|].
  now rewrite lower_ascii_idempotent, IH.
Qed.

Lemma lstrip_length (s : string) :
  String.length (PyStr.lstrip s) <= String.length s.
Proof.
  induction s as [|c s IH]; simpl; [lia|].
  destruct (PyStr.is_space c); simpl; lia.
Qed.

(** A string that [lstrip] leaves alone is empty or starts with a character
    that is not white space. *)
Lemma lstrip_fixed (c : ascii) (s : string) :
  PyStr.lstrip (String c s) = String c s <-> PyStr.is_space c = false.
Proof.
  simpl; destruct (PyStr.is_space c); split; try congruence.
  intros E; pose proof (lstrip_length s) as Hlen.
  rewrite E in Hlen; simpl in Hlen; lia.
Qed.

Lemma lstrip_idempotent (s : string) :
  PyStr.lstrip (PyStr.lstrip s) = PyStr.lstrip s.
Proof.
  induction s as [|c s IH]; simpl; [reflexivity|].
  destruct (PyStr.is_space c) eqn:E; [exact IH|].
  simpl; now rewrite E.
Qed.

Lemma rstrip_idempotent (s : string) :
  PyStr.rstrip (PyStr.rstrip s) = PyStr.rstrip s.
Proof.
  induction s as [|c s IH]; simpl; [reflexivity|].
  destruct (PyStr.rstrip s) as [|d u] eqn:E.
  - destruct (PyStr.is_space c) eqn:Hc; simpl; [reflexivity | now rewrite Hc].
  - change (PyStr.rstrip (String c (String d u)))
      with (match PyStr.rstrip (String d u) with
            | EmptyString =>
                if PyStr.is_space c then EmptyString else String c EmptyString
            | t => String c t
            end).
    now rewrite IH.
Qed.

Lemma lstrip_rstrip_fixed (s : string) :
  PyStr.lstrip s = s -> PyStr.lstrip (PyStr.rstrip s) = PyStr.rstrip s.
Proof.
  destruct s as [|c s]; [reflexivity|].
  intros H; apply lstrip_fixed in H.
  simpl PyStr.rstrip.
  destruct (PyStr.rstrip s); [rewrite H|]; simpl; now rewrite H.
Qed.

Lemma strip_idempotent (s : string) :
  PyStr.strip (PyStr.strip s) = PyStr.strip s.
Proof.
  unfold PyStr.strip.
  rewrite (lstrip_rstrip_fixed (PyStr.lstrip s) (lstrip_idempotent s)).
  apply rstrip_idempotent.
Qed.

Lemma join_cons2 (sep x y : string) (l : list string) :
  PyStr.join sep (x :: y :: l)
  = String.append x (String.append sep (PyStr.join sep (y :: l))).
Proof. reflexivity. Qed.

(** ['_'.join(s.split('_')) == s] *)
Lemma join_split_underscore (s : string) :
  PyStr.join "_" (PyStr.split_underscore s) = s.
Proof.
  induction s as [|c s IH]; [reflexivity|].
  simpl PyStr.split_underscore.
  pose proof (split_underscore_nonempty s) as Hne.
  destruct (Ascii.eqb c "_"%char) eqn:E.
  - apply Ascii.eqb_eq in E; subst c.
    destruct (PyStr.split_underscore s) as [|p ps]; [congruence|].
    rewrite join_cons2, IH; reflexivity.
  - destruct (PyStr.split_underscore s) as [|p [|q ps]]; [congruence| |].
    + simpl in *; now rewrite IH.
    + rewrite <- IH, !join_cons2; reflexivity.
Qed.

Lemma count_underscores_app (s t : string) :
  count_underscores (String.append s t)
  = count_underscores s + count_underscores t.
Proof. induction s as [|c s IH]; simpl; [reflexivity | rewrite IH; lia]. Qed.

Lemma split_underscore_clean (s : string) :
  Forall (fun t => count_underscores t = 0) (PyStr.split_underscore s).
Proof.
  induction s as [|c s IH]; simpl; [repeat constructor|].
  destruct (Ascii.eqb c "_"%char) eqn:E; [now constructor|].
  destruct (PyStr.split_underscore s) as [|p ps]; [repeat constructor; simpl; now rewrite E|].
  inversion IH as [|? ? Hp Hps]; subst.
  constructor; [simpl; rewrite E, Hp; reflexivity | exact Hps].
Qed.

Lemma join_app_suffix (sep : string) (l1 l2 : list string) :
  l2 <> [] ->
  exists p, PyStr.join sep (l1 ++ l2) = String.append p (PyStr.join sep l2).
Proof.
  intros Hne; induction l1 as [|x l1 [p IH]]; [now exists EmptyString|].
  destruct (l1 ++ l2) as [|y l] eqn:E.
  - destruct l1; [simpl in E; congruence | discriminate].
  - exists (String.append x (String.append sep p)).
    change ((x :: l1) ++ l2) with (x :: (l1 ++ l2)).
    rewrite E, join_cons2, IH, !append_assoc; reflexivity.
Qed.

(** ** Device Match-Token Extractor, continued *)

Lemma last_two_of_three (parts : list string) :
  3 <= length parts ->
  exists front y z, parts = front ++ [y; z] /\ last_two parts = [y; z].
Proof.
  intros Hlen; unfold last_two.
  pose proof (firstn_skipn (length parts - 2) parts) as Hsplit.
  pose proof (length_skipn (length parts - 2) parts) as Hskip.
  destruct (skipn (length parts - 2) parts) as [|y [|z [|w l]]];
    simpl in Hskip; try lia.
  exists (firstn (length parts - 2) parts), y, z; split; [now symmetry | reflexivity].
Qed.

(** X1: the match token of a device name is a suffix of the name, and it has
    at most one underscore. *)
Theorem match_token_is_short_suffix (s : string) :
  (exists p, s = String.append p (extract_match_part (PyText s))) /\
  count_underscores (extract_match_part (PyText s)) <= 1.
Proof.
  rewrite extract_match_part_text; unfold token_rules.
  pose proof (join_split_underscore s) as Hjoin.
  pose proof (split_underscore_clean s) as Hclean.
  destruct (PyStr.split_underscore s) as [|a [|b [|c l]]] eqn:E.
  - now destruct (split_underscore_nonempty s).
  - simpl in *; subst a; split; [now exists EmptyString|].
    inversion Hclean; lia.
  - simpl length; cbv iota; simpl nth; split.
    + exists (String.append a "_"); rewrite <- Hjoin, join_cons2, append_assoc.
      reflexivity.
    + inversion Hclean as [|? ? _ Hb]; inversion Hb; lia.
  - simpl length; cbv iota.
    destruct (last_two_of_three (a :: b :: c :: l)) as [front [y [z [Hparts ->]]]];
      [simpl; lia|].
    split.
    + destruct (join_app_suffix "_" front [y; z]) as [p Hp]; [discriminate|].
      exists p; now rewrite <- Hjoin, Hparts.
    + rewrite Hparts in Hclean.
      apply Forall_app in Hclean; destruct Hclean as [_ Hyz].
      inversion Hyz as [|? ? Hy Hz']; inversion Hz' as [|? ? Hz _]; subst.
      rewrite join_cons2, !count_underscores_app; simpl PyStr.join.
      rewrite Hy, Hz; simpl; lia.
Qed.

(** ** Link Identity Normalizer, continued *)

Lemma sorted_pair_ascending (a b : string) :
  String.leb (fst (sorted_pair a b)) (snd (sorted_pair a b)) = true.
Proof.
  unfold sorted_pair.
  destruct (String.ltb b a) eqn:E; simpl.
  - apply string_leb_cases; left; now apply string_ltb_lt.
  - unfold String.ltb in E; rewrite String.compare_antisym in E.
    unfold String.leb; destruct (String.compare a b); simpl in *; congruence.
Qed.

(** X2: the LinkKey does not change when white space is added around or
    removed from the device names, and its first component is never above
    its second. *)
Theorem normalize_link_ignores_padding (a b : string) :
  normalize_link (PyText (PyStr.strip a)) (PyText (PyStr.strip b))
  = normalize_link (PyText a) (PyText b) /\
  String.leb (fst (normalize_link (PyText a) (PyText b)))
    (snd (normalize_link (PyText a) (PyText b))) = true.
Proof.
  split.
  - unfold normalize_link; simpl; now rewrite !strip_idempotent.
  - apply sorted_pair_ascending.
Qed.

(** ** Port Priority Scorer, continued *)

(** X3: the score is 0, 1, 2 or 3; it is 0 exactly for a missing port; and it
    does not depend on the case of the letters. *)
Theorem port_priority_score_range :
  (forall v, (0 <= port_priority_score v <= 3)%Z) /\
  (forall v, port_priority_score v = 0%Z <-> v = NA) /\
  (forall s, port_priority_score (Text (PyStr.lower s))
             = port_priority_score (Text s)).
Proof.
  repeat split.
  - unfold port_priority_score; destruct v; simpl; try lia;
      repeat match goal with |- context [if ?b then _ else _] => destruct b end; lia.
  - unfold port_priority_score; destruct v; simpl; try lia;
      repeat match goal with |- context [if ?b then _ else _] => destruct b end; lia.
  - unfold port_priority_score; destruct v; simpl; try reflexivity;
      repeat match goal with |- context [if ?b then _ else _] => destruct b end;
      discriminate.
  - now intros ->.
  - intros s; unfold port_priority_score; cbn [isna value_str].
    now rewrite lower_idempotent.
Qed.

(** X4: the scorer does not trim. A port written with leading white space
    scores 1 whatever follows, so a padded [ Eth1/1] ranks as an ordinary
    port. *)
Theorem padded_port_scores_one (c : ascii) (s : string) :
  PyStr.is_space c = true -> port_priority_score (Text (String c s)) = 1%Z.
Proof.
  destruct c as [[] [] [] [] [] [] [] []]; vm_compute; intros H;
    try discriminate H; reflexivity.
Qed.

Lemma padded_port_scores_one_witness :
  PyStr.is_space " "%char = true /\
  port_priority_score (Text (String " "%char "Eth1/1")) = 1%Z.
Proof.
  split; [reflexivity|].
  apply (padded_port_scores_one " "%char "Eth1/1"); reflexivity.
Defined.

(** ** Preferred Port Resolver, continued *)

Lemma get_preferred_ports_matched (df : frame) (source destination : string) :
  get_preferred_ports df source destination
  = match matched_rows df source destination with
    | [] => (None, None)
    | first :: _ =>
        (Some (preferred Source_Port (matched_rows df source destination) first),
         Some (preferred Destination_Port (matched_rows df source destination) first))
    end.
Proof. reflexivity. Qed.

Lemma filter_nil_iff {A : Type} (f : A -> bool) (l : list A) :
  filter f l = [] <-> forall x, In x l -> f x = false.
Proof.
  induction l as [|a l IH]; simpl; [tauto|].
  destruct (f a) eqn:E; split.
  - discriminate.
  - intros H; specialize (H a (or_introl eq_refl)); congruence.
  - intros H x [<-|Hx]; [exact E | now apply IH].
  - intros H; apply IH; auto.
Qed.

Lemma is_empty_nil {A : Type} (l : list A) : is_empty l = true <-> l = [].
Proof. destruct l; simpl; split; congruence. Qed.

Lemma matched_rows_nil (df : frame) (source destination : string) :
  matched_rows df source destination = [] <->
  forall r, In r df ->
    links source destination r = false /\ links destination source r = false.
Proof.
  unfold matched_rows.
  destruct (filter (links source destination) df) as [|x l] eqn:E;
    cbn [is_empty].
  - pose proof (proj1 (filter_nil_iff _ _) E) as Hfwd.
    split.
    + intros H r Hr; split; [now apply Hfwd|].
      now apply (proj1 (filter_nil_iff _ _) H).
    + intros H; apply filter_nil_iff; intros r Hr; now apply H.
  - split; [discriminate|].
    intros H.
    assert (Hx : In x (filter (links source destination) df))
      by (rewrite E; now left).
    apply filter_In in Hx; destruct Hx as [Hx Hl].
    destruct (H x Hx); congruence.
Qed.

(** X5: the resolver returns [(None, None)] exactly when no row of the frame
    records the pair of devices, in either direction. *)
Theorem resolver_none_iff_unrecorded (df : frame) (source destination : string) :
  get_preferred_ports df source destination = (None, None) <->
  forall r, In r df ->
    links source destination r = false /\ links destination source r = false.
Proof.
  rewrite get_preferred_ports_matched, <- matched_rows_nil.
  destruct (matched_rows df source destination); split;
    congruence || discriminate.
Qed.

Lemma matched_rows_one_direction (df : frame) (source destination : string) :
  (forall r, In r df -> links destination source r = false) ->
  matched_rows df source destination = filter (links source destination) df /\
  matched_rows df destination source = filter (links source destination) df.
Proof.
  intros H; apply filter_nil_iff in H; unfold matched_rows; rewrite H; simpl.
  split; [|reflexivity].
  now destruct (filter (links source destination) df).
Qed.

(** X6: when the frame records a link in one direction only, the resolver
    gives the same ports whichever device is named first. *)
Theorem resolver_direction_free (df : frame) (source destination : string) :
  (forall r, In r df -> links destination source r = false) \/
  (forall r, In r df -> links source destination r = false) ->
  get_preferred_ports df source destination
  = get_preferred_ports df destination source.
Proof.
  rewrite !get_preferred_ports_matched.
  intros [H|H].
  - destruct (matched_rows_one_direction df source destination H) as [-> ->].
    reflexivity.
  - destruct (matched_rows_one_direction df destination source H) as [-> ->].
    reflexivity.
Qed.

Lemma resolver_direction_free_witness :
  get_preferred_ports (index_rows eth_then_ae) "R1" "R2"
  = get_preferred_ports (index_rows eth_then_ae) "R2" "R1".
Proof.
  apply (resolver_direction_free (index_rows eth_then_ae) "R1" "R2").
  left; intros r [<-|[<-|[]]]; reflexivity.
Defined.

(** When both directions are recorded the order of the devices matters. *)
Example resolver_direction_matters :
  get_preferred_ports (index_rows (rows ae_then_eth)) "R1" "R2"
  = (Some (Text "ae1"), Some (Text "ae2")) /\
  get_preferred_ports (index_rows (rows ae_then_eth)) "R2" "R1"
  = (Some (Text "Eth2/1"), Some (Text "Eth1/1")).
Proof. split; reflexivity. Qed.

Lemma matched_rows_incl (df : frame) (source destination : string) (r : irow) :
  In r (matched_rows df source destination) ->
  In r df /\
  (links source destination r = true \/ links destination source r = true).
Proof.
  unfold matched_rows.
  destruct (is_empty (filter (links source destination) df));
    rewrite filter_In; tauto.
Qed.

Lemma preferred_from_rows (port_of : row -> value) (filtered : frame)
  (first : irow) :
  In first filtered ->
  exists r, In r filtered /\ preferred port_of filtered first = port_of (snd r).
Proof.
  intros Hfirst; unfold preferred.
  destruct (filter (fun r => port_startswith "eth" (port_of (snd r))) filtered)
    as [|x l] eqn:Eeth; simpl.
  - destruct (filter (fun r => port_startswith "ae" (port_of (snd r))) filtered)
      as [|y l'] eqn:Eae.
    + now exists first.
    + exists y; split; [|reflexivity].
      assert (H : In y (y :: l')) by now left.
      rewrite <- Eae in H; now apply filter_In in H.
  - exists x; split; [|reflexivity].
    assert (H : In x (x :: l)) by now left.
    rewrite <- Eeth in H; now apply filter_In in H.
Qed.

(** X7: the ports the resolver returns are cells of rows of the frame that
    record the pair of devices: the source port is the Source Port of one
    such row and the destination port the Destination Port of one such row
    (not always the same row). *)
Theorem resolver_ports_come_from_rows (df : frame) (source destination : string)
  (p q : value) :
  get_preferred_ports df source destination = (Some p, Some q) ->
  exists r1 r2,
    In r1 df /\ In r2 df /\
    (links source destination r1 = true /\ links source destination r2 = true \/
     links destination source r1 = true /\ links destination source r2 = true) /\
    p = Source_Port (snd r1) /\ q = Destination_Port (snd r2).
Proof.
  rewrite get_preferred_ports_matched.
  destruct (matched_rows df source destination) as [|first rest] eqn:E;
    [discriminate|].
  intros [= <- <-].
  assert (Hfirst : In first (first :: rest)) by now left.
  destruct (preferred_from_rows Source_Port _ first Hfirst) as [r1 [H1 ->]].
  destruct (preferred_from_rows Destination_Port _ first Hfirst) as [r2 [H2 ->]].
  exists r1, r2.
  rewrite <- E in H1, H2.
  assert (Hdir : forall r, In r (matched_rows df source destination) ->
                           is_empty (filter (links source destination) df) = false ->
                           links source destination r = true).
  { unfold matched_rows; intros r Hr Hne; rewrite Hne in Hr.
    now apply filter_In in Hr. }
  assert (Hrev : forall r, In r (matched_rows df source destination) ->
                           is_empty (filter (links source destination) df) = true ->
                           links destination source r = true).
  { unfold matched_rows; intros r Hr Hne; rewrite Hne in Hr.
    now apply filter_In in Hr. }
  repeat split; try (now apply (matched_rows_incl df source destination)).
  destruct (is_empty (filter (links source destination) df)) eqn:Hempty;
    [right | left]; split; auto.
Qed.

Lemma resolver_ports_come_from_rows_witness :
  exists r1 r2,
    In r1 crossed_ports /\ In r2 crossed_ports /\
    (links "R1" "R2" r1 = true /\ links "R1" "R2" r2 = true \/
     links "R2" "R1" r1 = true /\ links "R2" "R1" r2 = true) /\
    Text "Eth1" = Source_Port (snd r1) /\ Text "Eth2" = Destination_Port (snd r2).
Proof.
  apply (resolver_ports_come_from_rows crossed_ports "R1" "R2"
           (Text "Eth1") (Text "Eth2")).
  reflexivity.
Defined.

Lemma port_priority_score_bounds (v : value) :
  (0 <= port_priority_score v <= 3)%Z.
Proof.
  unfold port_priority_score; destruct (isna v); [lia|].
  repeat match goal with |- context [if ?b then _ else _] => destruct b end; lia.
Qed.

Lemma score_cases (v : value) :
  port_priority_score v = 0%Z \/ port_priority_score v = 1%Z \/
  port_priority_score v = 2%Z \/ port_priority_score v = 3%Z.
Proof.
  unfold port_priority_score; destruct (isna v); [auto|].
  repeat match goal with |- context [if ?b then _ else _] => destruct b end; auto.
Qed.

Lemma score_three_iff (v : value) :
  port_priority_score v = 3%Z <-> port_startswith "eth" v = true.
Proof.
  unfold port_priority_score, port_startswith; destruct v as [|s|s nonzero];
    [split; discriminate| |]; cbn [isna value_str];
    (destruct (PyStr.startswith (PyStr.lower s) "eth"); [tauto|]);
    destruct (PyStr.startswith (PyStr.lower s) "ae"); split; discriminate.
Qed.

Lemma score_two_iff (v : value) :
  port_priority_score v = 2%Z <->
  port_startswith "eth" v = false /\ port_startswith "ae" v = true.
Proof.
  unfold port_priority_score, port_startswith; destruct v as [|s|s nonzero];
    [split; [discriminate | intros [_ H]; discriminate H]| |];
    cbn [isna value_str];
    (destruct (PyStr.startswith (PyStr.lower s) "eth");
     [split; [discriminate | intros [H _]; discriminate H]|]);
    destruct (PyStr.startswith (PyStr.lower s) "ae"); split; auto;
    try discriminate; intros [_ H]; discriminate H.
Qed.

Lemma filter_head_In {A : Type} (f : A -> bool) (l : list A) (x : A) (rest : list A) :
  filter f l = x :: rest -> In x l /\ f x = true.
Proof.
  intros E; apply filter_In; rewrite E; now left.
Qed.

Lemma preferred_best_class (port_of : row -> value) (filtered : frame)
  (first r : irow) :
  In r filtered ->
  (2 <= port_priority_score (port_of (snd r)))%Z ->
  (port_priority_score (port_of (snd r))
   <= port_priority_score (preferred port_of filtered first))%Z.
Proof.
  intros Hr Hscore; unfold preferred.
  destruct (filter (fun r => port_startswith "eth" (port_of (snd r))) filtered)
    as [|x l] eqn:Eeth; simpl.
  - assert (Hnoeth : port_startswith "eth" (port_of (snd r)) = false)
      by (rewrite filter_nil_iff in Eeth; now apply Eeth).
    destruct (filter (fun r => port_startswith "ae" (port_of (snd r))) filtered)
      as [|y l'] eqn:Eae.
    + rewrite filter_nil_iff in Eae; specialize (Eae r Hr).
      pose proof (proj1 (port_priority_score_bounds (port_of (snd r)))) as Hb.
      destruct (score_cases (port_of (snd r))) as [H|[H|[H|H]]]; try lia.
      * apply score_two_iff in H; destruct H; congruence.
      * apply score_three_iff in H; congruence.
    + apply filter_head_In in Eae; destruct Eae as [Hy Hae].
      rewrite filter_nil_iff in Eeth; specialize (Eeth y Hy).
      assert (Hy2 : port_priority_score (port_of (snd y)) = 2%Z)
        by now apply score_two_iff.
      destruct (score_cases (port_of (snd r))) as [H|[H|[H|H]]]; try lia.
      apply score_three_iff in H; congruence.
  - apply filter_head_In in Eeth; destruct Eeth as [_ Hx].
    apply score_three_iff in Hx; rewrite Hx.
    apply port_priority_score_bounds.
Qed.

(** X8: the resolver prefers [eth] to [ae] and [ae] to the rest. Whenever a
    row that records the pair has a port of score 2 or 3 in a column, the
    port returned for that column scores at least as much. *)
Theorem resolver_prefers_eth_then_ae (df : frame) (source destination : string)
  (p q : value) (r : irow) :
  get_preferred_ports df source destination = (Some p, Some q) ->
  In r (matched_rows df source destination) ->
  ((2 <= port_priority_score (Source_Port (snd r)))%Z ->
   (port_priority_score (Source_Port (snd r)) <= port_priority_score p)%Z) /\
  ((2 <= port_priority_score (Destination_Port (snd r)))%Z ->
   (port_priority_score (Destination_Port (snd r)) <= port_priority_score q)%Z).
Proof.
  rewrite get_preferred_ports_matched.
  destruct (matched_rows df source destination) as [|first rest] eqn:E;
    [discriminate|].
  intros [= <- <-] Hr; split; intros Hscore; now apply preferred_best_class.
Qed.

Lemma resolver_prefers_eth_then_ae_witness :
  ((2 <= port_priority_score (Source_Port (snd (1, mkRow "R1" (Text "Gi1") "R2" (Text "Eth2") "L2"))))%Z ->
   (port_priority_score (Source_Port (snd (1, mkRow "R1" (Text "Gi1") "R2" (Text "Eth2") "L2")))
    <= port_priority_score (Text "Eth1"))%Z) /\
  ((2 <= port_priority_score (Destination_Port (snd (1, mkRow "R1" (Text "Gi1") "R2" (Text "Eth2") "L2"))))%Z ->
   (port_priority_score (Destination_Port (snd (1, mkRow "R1" (Text "Gi1") "R2" (Text "Eth2") "L2")))
    <= port_priority_score (Text "Eth2"))%Z).
Proof.
  apply (resolver_prefers_eth_then_ae crossed_ports "R1" "R2"
           (Text "Eth1") (Text "Eth2")
           (1, mkRow "R1" (Text "Gi1") "R2" (Text "Eth2") "L2")).
  - reflexivity.
  - vm_compute; auto.
Defined.

(** Without an [eth] or [ae] port the first row decides, even when its cell
    is missing and another row has a port. *)
Example resolver_first_row_missing :
  get_preferred_ports
    (index_rows
       [mkRow "R1" NA "R2" (Text "Gi2") "L1";
        mkRow "R1" (Text "Gi1") "R2" (Text "Gi3") "L2"])
    "R1" "R2"
  = (Some NA, Some (Text "Gi2")).
Proof. reflexivity. Qed.

(** ** Duplicate Port Detector, continued *)

Lemma count_occ_map_filter {A : Type} (f : A -> string) (l : list A) (k : string) :
  count_occ string_dec (map f l) k
  = length (filter (fun x => String.eqb (f x) k) l).
Proof.
  induction l as [|a l IH]; simpl; [reflexivity|].
  destruct (string_dec (f a) k) as [E|E].
  - rewrite (proj2 (String.eqb_eq _ _) E); simpl; now rewrite IH.
  - rewrite (proj2 (String.eqb_neq _ _) E); exact IH.
Qed.

Lemma filter_length_mono {A : Type} (f g : A -> bool) (l : list A) :
  (forall x, In x l -> f x = true -> g x = true) ->
  length (filter f l) <= length (filter g l).
Proof.
  induction l as [|a l IH]; intros H; simpl; [lia|].
  assert (IH' : length (filter f l) <= length (filter g l))
    by (apply IH; intros x Hx; apply H; now right).
  destruct (f a) eqn:Ef.
  - rewrite (H a (or_introl eq_refl) Ef); simpl; lia.
  - destruct (g a); simpl; lia.
Qed.

Lemma filter_map_commute {A B : Type} (f : A -> B) (p : B -> bool) (l : list A) :
  filter p (map f l) = map f (filter (fun x => p (f x)) l).
Proof.
  induction l as [|a l IH]; simpl; [reflexivity|].
  destruct (p (f a)); simpl; now rewrite IH.
Qed.

(** Whether the detector reports the row. *)
Lemma find_duplicate_ports_length (df : frame) :
  length (find_duplicate_ports df)
  = length
      (filter
         (fun r =>
            Nat.ltb 1 (value_counts (map source_plus_port df) (source_plus_port r))
            || Nat.ltb 1 (value_counts (map dest_plus_port df) (dest_plus_port r)))
         df).
Proof.
  unfold find_duplicate_ports.
  now rewrite filter_map_commute, length_map.
Qed.

Lemma NoDup_counts (l : list string) :
  NoDup l <-> forall x, In x l -> Nat.ltb 1 (count_occ string_dec l x) = false.
Proof.
  rewrite (NoDup_count_occ string_dec); split.
  - intros H x _; apply Nat.ltb_ge, H.
  - intros H x.
    destruct (in_dec string_dec x l) as [Hin|Hout].
    + now apply Nat.ltb_ge, H.
    + apply (count_occ_not_In string_dec) in Hout; lia.
Qed.

Lemma find_duplicate_ports_nil (df : frame) :
  find_duplicate_ports df = [] <->
  NoDup (map source_plus_port df) /\ NoDup (map dest_plus_port df).
Proof.
  rewrite <- length_zero_iff_nil, find_duplicate_ports_length,
    length_zero_iff_nil, filter_nil_iff, !NoDup_counts.
  unfold value_counts; split.
  - intros H; split; intros x Hx; apply in_map_iff in Hx;
      destruct Hx as [r [<- Hr]]; specialize (H r Hr);
      apply orb_false_iff in H; tauto.
  - intros [Hs Hd] r Hr; apply orb_false_iff; split;
      [apply Hs | apply Hd]; now apply in_map.
Qed.

(** X9: on a frame in which no port cell is missing the detector reports
    nothing exactly when the composite keys [device_port] are pairwise
    distinct on the source side and pairwise distinct on the destination
    side. (What [.astype(str)] makes of a missing cell, and so whether two
    rows with a missing port share a key, is not the same in every version
    of pandas.) *)
Theorem no_duplicate_ports_iff_keys_distinct (df : frame) :
  (forall r, In r df ->
             isna (Source_Port (snd r)) = false /\
             isna (Destination_Port (snd r)) = false) ->
  (find_duplicate_ports df = [] <->
   NoDup (map source_plus_port df) /\ NoDup (map dest_plus_port df)).
Proof. intros _; apply find_duplicate_ports_nil. Qed.

Lemma no_duplicate_ports_iff_keys_distinct_witness :
  find_duplicate_ports (index_rows two_links) = [] <->
  NoDup (map source_plus_port (index_rows two_links)) /\
  NoDup (map dest_plus_port (index_rows two_links)).
Proof.
  apply (no_duplicate_ports_iff_keys_distinct (index_rows two_links)).
  intros r [<-|[<-|[]]]; split; reflexivity.
Defined.

(** X10: reported rows never come alone: the detector returns no row or at
    least two, and never more rows than the frame has. In particular a frame
    of one row has no duplicate port. *)
Theorem duplicate_ports_never_single (df : frame) :
  length (find_duplicate_ports df) <> 1 /\
  length (find_duplicate_ports df) <= length df.
Proof.
  rewrite find_duplicate_ports_length; split; [|apply List.filter_length_le].
  set (reported := fun r : irow =>
         Nat.ltb 1 (value_counts (map source_plus_port df) (source_plus_port r))
         || Nat.ltb 1 (value_counts (map dest_plus_port df) (dest_plus_port r))).
  destruct (filter reported df) as [|r rest] eqn:E; [discriminate|].
  assert (Hr : In r df /\ reported r = true)
    by (apply filter_In; rewrite E; now left).
  destruct Hr as [Hr Hrep]; rewrite <- E.
  unfold reported in Hrep; apply orb_true_iff in Hrep.
  destruct Hrep as [H|H]; apply Nat.ltb_lt in H; unfold value_counts in H;
    rewrite count_occ_map_filter in H.
  - assert (Hle : length (filter (fun x => String.eqb (source_plus_port x)
                                             (source_plus_port r)) df)
                  <= length (filter reported df)).
    { apply filter_length_mono; intros x _ Hx; apply String.eqb_eq in Hx.
      unfold reported, value_counts; apply orb_true_iff; left.
      rewrite Hx, count_occ_map_filter; now apply Nat.ltb_lt. }
    lia.
  - assert (Hle : length (filter (fun x => String.eqb (dest_plus_port x)
                                             (dest_plus_port r)) df)
                  <= length (filter reported df)).
    { apply filter_length_mono; intros x _ Hx; apply String.eqb_eq in Hx.
      unfold reported, value_counts; apply orb_true_iff; right.
      rewrite Hx, count_occ_map_filter; now apply Nat.ltb_lt. }
    lia.
Qed.

(** ** Directional Duplicate Resolver, continued *)

Lemma boolean_mask_sorted {A : Type} (R : A -> A -> Prop) (mask : list bool)
  (l : list A) :
  StronglySorted R l -> StronglySorted R (boolean_mask mask l).
Proof.
  intros Hs; revert mask; induction Hs as [|x l Hl IH Hx]; intros [|b mask];
    simpl; try constructor.
  destruct b; [|apply IH].
  constructor; [apply IH|].
  apply Forall_forall; intros y Hy.
  rewrite Forall_forall in Hx; apply Hx.
  clear -Hy; revert mask Hy; induction l as [|z l IHl]; intros [|b mask];
    simpl; try easy.
  destruct b; [intros [<-|Hy]; [now left | right; eauto] | intros Hy; right; eauto].
Qed.

(** X11: both results of the resolver are ordered by Total Priority,
    highest first: the cleaned rows do not keep the order of the dataset. *)
Theorem resolver_output_by_priority (S : SortValues) (df : frame) :
  StronglySorted (fun a b => (Total_Priority b <= Total_Priority a)%Z)
    (fst (remove_duplicate_links_with_priority df)) /\
  StronglySorted (fun a b => (Total_Priority b <= Total_Priority a)%Z)
    (snd (remove_duplicate_links_with_priority df)).
Proof.
  assert (Hs : StronglySorted (fun a b => (Total_Priority b <= Total_Priority a)%Z)
                 (sort_values by_total_priority_desc df)).
  { pose proof (sort_values_sorted by_total_priority_desc df
                  by_total_priority_desc_total by_total_priority_desc_trans) as H.
    induction H as [|x l Hl IH Hx]; constructor; [exact IH|].
    eapply Forall_impl; [|exact Hx].
    intros y Hy; unfold by_total_priority_desc in Hy; lia. }
  split; now apply boolean_mask_sorted.
Qed.

Lemma nothing_duplicated (seen : list LinkKey) (df : frame) :
  NoDup (map Normalized df) ->
  (forall k, In k (map Normalized df) -> ~ In k seen) ->
  kept_from seen df = df /\ boolean_mask (duplicated_from seen df) df = [].
Proof.
  revert seen; induction df as [|r df IH]; intros seen Hnd Hseen;
    [split; reflexivity|].
  simpl in Hnd; inversion Hnd as [|? ? Hr Hnd']; subst.
  assert (Hfresh : in_links (Normalized r) seen = false).
  { destruct (in_links (Normalized r) seen) eqn:E; [|reflexivity].
    apply in_links_In in E; exfalso; apply (Hseen (Normalized r)); [now left | exact E]. }
  destruct (IH (Normalized r :: seen) Hnd') as [Hkept Hdup].
  { intros k Hk [<-|Hs]; [exact (Hr Hk) | apply (Hseen k); [now right | exact Hs]]. }
  rewrite kept_from_cons, Hfresh, Hkept; split; [reflexivity|].
  simpl; unfold in_links in Hfresh; now rewrite Hfresh.
Qed.

Lemma resolver_duplicates {S : SortValues} (df : frame) :
  snd (remove_duplicate_links_with_priority df)
  = boolean_mask (duplicated (sort_values by_total_priority_desc df))
      (sort_values by_total_priority_desc df).
Proof. reflexivity. Qed.

Lemma sorted_keys_NoDup {S : SortValues} (leb : irow -> irow -> bool) (df : frame) :
  NoDup (map Normalized (sort_values leb df)) <-> NoDup (map Normalized df).
Proof.
  split; apply Permutation_NoDup, Permutation_map;
    [apply sort_values_perm | apply Permutation_sym, sort_values_perm].
Qed.

(** X12: the resolver removes nothing exactly when no two rows of the dataset
    have the same LinkKey; the cleaned rows are then the whole dataset,
    rearranged. *)
Theorem no_duplicates_iff_links_distinct (S : SortValues) (df : frame) :
  (snd (remove_duplicate_links_with_priority df) = [] <->
   NoDup (map Normalized df)) /\
  (snd (remove_duplicate_links_with_priority df) = [] ->
   Permutation (fst (remove_duplicate_links_with_priority df)) df).
Proof.
  rewrite resolver_duplicates, resolver_cleaned.
  set (sorted := sort_values by_total_priority_desc df).
  pose proof (boolean_mask_partition (duplicated sorted) sorted
                (duplicated_from_length [] sorted)) as Hpart.
  fold (kept_from [] sorted) in Hpart.
  assert (Hperm : boolean_mask (duplicated sorted) sorted = [] ->
                  Permutation (kept_from [] sorted) sorted).
  { intros E; rewrite E, app_nil_r in Hpart; exact Hpart. }
  split; [split|].
  - intros E; apply (sorted_keys_NoDup by_total_priority_desc).
    fold sorted.
    apply (Permutation_NoDup (Permutation_map Normalized (Hperm E))).
    apply kept_from_NoDup.
  - intros Hnd; apply (sorted_keys_NoDup by_total_priority_desc) in Hnd.
    now apply (nothing_duplicated [] sorted).
  - intros E; rewrite (Hperm E); apply sort_values_perm.
Qed.

(** X13: running the resolver again on its cleaned rows removes nothing and
    returns the same rows. *)
Theorem resolver_idempotent (S : SortValues) (df : frame) :
  snd (remove_duplicate_links_with_priority
         (fst (remove_duplicate_links_with_priority df))) = [] /\
  Permutation
    (fst (remove_duplicate_links_with_priority
            (fst (remove_duplicate_links_with_priority df))))
    (fst (remove_duplicate_links_with_priority df)).
Proof.
  set (cleaned := fst (remove_duplicate_links_with_priority df)).
  assert (Hnd : NoDup (map Normalized cleaned))
    by (unfold cleaned; rewrite resolver_cleaned; apply kept_from_NoDup).
  apply (sorted_keys_NoDup by_total_priority_desc) in Hnd.
  destruct (nothing_duplicated [] _ Hnd) as [Hkept Hdup]; [easy|].
  rewrite resolver_duplicates, resolver_cleaned; split; [exact Hdup|].
  rewrite Hkept; apply sort_values_perm.
Qed.

Lemma boolean_mask_In {A : Type} (mask : list bool) (l : list A) (x : A) :
  In x (boolean_mask mask l) -> In x l.
Proof.
  revert mask; induction l as [|a l IH]; intros [|b mask]; simpl; try easy.
  destruct b; simpl; [intros [->|H]; [now left | right; eauto] | eauto].
Qed.

(** X29: a removed row never outranks the row kept for its link. Every row
    in [duplicates] has its LinkKey represented in [cleaned] by another row,
    whose Total Priority is at least as high. *)
Theorem removed_row_never_outranks_kept (S : SortValues) (rs : list row)
  (d : irow) :
  In d (snd (remove_duplicate_links_with_priority (index_rows rs))) ->
  exists kept,
    In kept (fst (remove_duplicate_links_with_priority (index_rows rs))) /\
    Normalized kept = Normalized d /\
    (Total_Priority d <= Total_Priority kept)%Z /\
    kept <> d.
Proof.
  intros Hd.
  set (df := index_rows rs) in *.
  set (sorted := sort_values by_total_priority_desc df).
  assert (Hsorted : Permutation sorted df) by apply sort_values_perm.
  assert (Hin : In d df).
  { apply (Permutation_in _ Hsorted).
    rewrite resolver_duplicates in Hd; exact (boolean_mask_In _ _ _ Hd). }
  destruct (kept_row_of_link df d Hin) as [kept [Hk [_ [Ekey [Hle _]]]]].
  exists kept; repeat split; try assumption.
  intros ->.
  assert (Hperm : Permutation
                    (fst (remove_duplicate_links_with_priority df)
                     ++ snd (remove_duplicate_links_with_priority df)) df).
  { apply (Permutation_trans (l' := sorted)); [|exact Hsorted].
    apply (boolean_mask_partition (duplicated sorted) sorted).
    apply duplicated_from_length. }
  apply (NoDup_app_disjoint _ _ d
           (Permutation_NoDup (Permutation_sym Hperm) (index_rows_NoDup rs)));
    assumption.
Qed.

Lemma removed_row_never_outranks_kept_witness :
  exists kept,
    In kept (fst (@remove_duplicate_links_with_priority stable_sort_values
                    (index_rows eth_then_ae))) /\
    Normalized kept
    = Normalized ae_record /\
    (Total_Priority ae_record
     <= Total_Priority kept)%Z /\
    kept <> ae_record.
Proof.
  apply (removed_row_never_outranks_kept stable_sort_values eth_then_ae
           ae_record).
  vm_compute; auto.
Defined.

(** ** Column Canonicalizer *)

Lemma canonicalize_columns_names (df : DataFrame) :
  columns (canonicalize_columns df) = map canonical_name (columns df).
Proof. reflexivity. Qed.

Lemma rename_map_Some (c name : string) :
  rename_map c = Some name -> In name required_cols.
Proof.
  unfold rename_map, required_cols.
  repeat match goal with |- context [if ?b then _ else _] => destruct b end;
    intros [= <-]; simpl; tauto.
Qed.

Lemma canonical_name_required (c : string) :
  In c required_cols -> canonical_name c = c.
Proof.
  unfold required_cols; simpl.
  intros [<-|[<-|[<-|[<-|[]]]]]; reflexivity.
Qed.

Lemma rename_map_strip (c : string) : rename_map (PyStr.strip c) = rename_map c.
Proof.
  unfold rename_map, header_key; now rewrite strip_idempotent.
Qed.

Lemma canonical_name_idempotent (c : string) :
  canonical_name (canonical_name c) = canonical_name c.
Proof.
  unfold canonical_name at 2 3.
  destruct (rename_map c) as [name|] eqn:E.
  - apply rename_map_Some in E.
    unfold required_cols in E; simpl in E.
    destruct E as [<-|[<-|[<-|[<-|[]]]]]; reflexivity.
  - unfold canonical_name; now rewrite rename_map_strip, E, strip_idempotent.
Qed.

(** X14: canonicalization is idempotent, keeps the rows and the number of
    columns, and never loses a required column: a header that is already one
    of the four canonical names stays as it is. *)
Theorem canonicalize_columns_idempotent (df : DataFrame) :
  canonicalize_columns (canonicalize_columns df) = canonicalize_columns df /\
  rows (canonicalize_columns df) = rows df /\
  length (columns (canonicalize_columns df)) = length (columns df) /\
  (forall c, In c (missing_columns required_cols (canonicalize_columns df)) ->
             In c (missing_columns required_cols df)).
Proof.
  split; [|split; [reflexivity | split]].
  - unfold canonicalize_columns; simpl; f_equal.
    rewrite map_map; apply map_ext; intros c; apply canonical_name_idempotent.
  - apply length_map.
  - intros c H; apply missing_columns_In in H; destruct H as [Hreq Hmiss].
    apply missing_columns_In; split; [exact Hreq|].
    unfold has_column in *.
    destruct (existsb (String.eqb c) (columns df)) eqn:E; [|reflexivity].
    apply existsb_exists in E; destruct E as [c' [Hc' E]].
    apply String.eqb_eq in E; subst c'.
    assert (Hin : In c (columns (canonicalize_columns df))).
    { rewrite canonicalize_columns_names, <- (canonical_name_required c Hreq).
      now apply in_map. }
    assert (Hex : existsb (String.eqb c) (columns (canonicalize_columns df)) = true).
    { apply existsb_exists; exists c; split; [exact Hin | apply String.eqb_refl]. }
    congruence.
Qed.

(** ** Link IDs made from the row number *)

Lemma nat_str_injective (n m : nat) : nat_str n = nat_str m -> n = m.
Proof.
  unfold nat_str; intros E.
  assert (E' : Some (Nat.to_uint n) = Some (Nat.to_uint m)).
  { rewrite <- !NilEmpty.usu; now rewrite E. }
  injection E' as E'.
  rewrite <- (DecimalNat.Unsigned.of_to n), <- (DecimalNat.Unsigned.of_to m).
  now rewrite E'.
Qed.

Lemma append_injective (p s t : string) :
  String.append p s = String.append p t -> s = t.
Proof.
  induction p as [|c p IH]; simpl; [easy|].
  intros [= E]; now apply IH.
Qed.

Lemma NoDup_map_injective {A B : Type} (f : A -> B) (l : list A) :
  (forall x y, f x = f y -> x = y) -> NoDup l -> NoDup (map f l).
Proof.
  intros Hinj; induction 1 as [|x l Hx Hl IH]; simpl; constructor; [|exact IH].
  rewrite in_map_iff; intros [y [E Hy]].
  apply Hinj in E; now subst.
Qed.

Lemma synthesize_link_ids_ids (df : frame) :
  map (fun r => Link_ID (snd r)) (synthesize_link_ids df)
  = map (fun r => String.append "Row " (nat_str (fst r + 1))) df.
Proof. unfold synthesize_link_ids; rewrite map_map; reflexivity. Qed.

Lemma synthesized_link_ids_NoDup (rs : list row) :
  NoDup (map (fun r => Link_ID (snd r)) (synthesize_link_ids (index_rows rs))).
Proof.
  rewrite synthesize_link_ids_ids.
  rewrite <- (map_map fst (fun i => String.append "Row " (nat_str (i + 1)))).
  apply NoDup_map_injective.
  - intros i j E; apply append_injective, nat_str_injective in E; lia.
  - unfold index_rows; rewrite index_rows_from_labels; apply seq_NoDup.
Qed.

(** X15: the Link IDs made up for a sheet without a [Link ID] column are
    pairwise distinct; the labels and the cells of the rows are kept. *)
Theorem synthesized_link_ids_distinct (rs : list row) :
  NoDup (map (fun r => Link_ID (snd r)) (synthesize_link_ids (index_rows rs))) /\
  map fst (synthesize_link_ids (index_rows rs)) = map fst (index_rows rs) /\
  map Normalized (synthesize_link_ids (index_rows rs))
  = map Normalized (index_rows rs) /\
  map Total_Priority (synthesize_link_ids (index_rows rs))
  = map Total_Priority (index_rows rs).
Proof.
  repeat split.
  - apply synthesized_link_ids_NoDup.
  - unfold synthesize_link_ids; rewrite map_map; reflexivity.
  - unfold synthesize_link_ids; rewrite map_map; reflexivity.
  - unfold synthesize_link_ids; rewrite map_map; reflexivity.
Qed.

(** ** Missing Links report *)

Lemma analyse_link_consistent (main_df : frame) (match_links : list LinkKey)
  (k : LinkKey) :
  map missing_key (snd (analyse_link main_df match_links k))
  = map analysis_key (filter is_missing (fst (analyse_link main_df match_links k))).
Proof.
  unfold analyse_link.
  destruct (rows_of_link main_df k) as [|original rest]; [reflexivity|].
  destruct (get_preferred_ports main_df (Source (snd original))
              (Destination (snd original))) as [cs cd].
  destruct (in_links k match_links); reflexivity.
Qed.

(** X16: the Missing Links report lists exactly the links whose Match Status
    in the Main Analysis is [Missing], in the same order and with the same
    link name, devices and LinkKey. *)
Theorem missing_links_are_the_missing_ones (O : SetOrder)
  (main_df match_df : frame) :
  map missing_key (missing_results main_df match_df)
  = map analysis_key (filter is_missing (analysis_results main_df match_df)).
Proof.
  unfold missing_results, analysis_results.
  induction (set_iter (map Normalized main_df)) as [|k keys IH];
    [reflexivity|].
  simpl; rewrite filter_app, !map_app, IH.
  now rewrite analyse_link_consistent.
Qed.

(** X18: when every LinkKey of dataset A is a LinkKey of dataset B, nothing is
    reported missing and every record of the Main Analysis is [Found]; this
    is so in particular when a dataset is compared with itself. *)
Theorem nothing_missing_when_covered (O : SetOrder) (main_df match_df : frame) :
  (forall k, In k (map Normalized main_df) -> In k (map Normalized match_df)) ->
  missing_results main_df match_df = [] /\
  Forall (fun a => an_Match_Status a = "Found")
    (analysis_results main_df match_df).
Proof.
  intros Hcov; unfold missing_results, analysis_results.
  assert (Hkeys : forall k, In k (set_iter (map Normalized main_df)) ->
                            in_links k (map Normalized match_df) = true).
  { intros k Hk; apply in_links_In, Hcov; now apply set_iter_In. }
  induction (set_iter (map Normalized main_df)) as [|k keys IH];
    [split; [reflexivity | constructor]|].
  destruct IH as [IHm IHa]; [intros k' Hk'; apply Hkeys; now right|].
  simpl; rewrite IHm, app_nil_r; unfold analyse_link.
  rewrite (Hkeys k (or_introl eq_refl)).
  destruct (rows_of_link main_df k) as [|original rest]; [now split|].
  destruct (get_preferred_ports main_df (Source (snd original))
              (Destination (snd original))) as [cs cd]; simpl.
  split; [reflexivity | now constructor].
Qed.

Lemma nothing_missing_when_covered_witness :
  @missing_results insertion_order (index_rows two_links) (index_rows two_links) = [] /\
  Forall (fun a => an_Match_Status a = "Found")
    (@analysis_results insertion_order (index_rows two_links) (index_rows two_links)).
Proof.
  apply (nothing_missing_when_covered insertion_order
           (index_rows two_links) (index_rows two_links)).
  intros k Hk; exact Hk.
Defined.

(** ** Port Correction Analyzer, continued *)

Lemma rows_of_link_single (df : frame) (k : LinkKey) :
  NoDup (map Normalized df) -> length (rows_of_link df k) <= 1.
Proof.
  unfold rows_of_link; induction df as [|r df IH]; simpl; [lia|].
  intros Hnd; inversion Hnd as [|? ? Hr Hnd']; subst.
  destruct (key_eqb (Normalized r) k) eqn:E; [|now apply IH].
  apply key_eqb_eq in E; subst k.
  assert (Hnone : filter (fun r' => key_eqb (Normalized r') (Normalized r)) df = []).
  { apply filter_nil_iff; intros x Hx; apply key_eqb_neq; intros Ex.
    apply Hr; rewrite <- Ex; now apply in_map. }
  rewrite Hnone; simpl; lia.
Qed.

Lemma correct_groups_single (main_df : frame) (keys : list LinkKey) :
  NoDup (map Normalized main_df) ->
  correct_groups main_df (map (fun k => (k, rows_of_link main_df k)) keys) = Ok [].
Proof.
  intros Hnd; induction keys as [|k keys IH]; simpl; [reflexivity|].
  rewrite IH; unfold correct_group.
  pose proof (rows_of_link_single main_df k Hnd) as Hlen.
  apply Nat.ltb_ge in Hlen; now rewrite Hlen.
Qed.

(** X19: on a frame in which no two rows have the same LinkKey the analyzer
    makes no correction record and does not fail, whatever the port cells
    hold, missing ones included. *)
Theorem no_correction_without_repeated_link (main_df : frame) :
  NoDup (map Normalized main_df) -> port_corrections main_df = Ok [].
Proof.
  intros Hnd; unfold port_corrections, groupby.
  now apply correct_groups_single.
Qed.

Lemma no_correction_without_repeated_link_witness :
  port_corrections distinct_links_missing_ports = Ok [].
Proof.
  apply (no_correction_without_repeated_link distinct_links_missing_ports).
  vm_compute.
  repeat (constructor; [simpl; intuition discriminate|]); constructor.
Defined.

Lemma get_preferred_ports_cells (df : frame) (source destination : string) :
  get_preferred_ports df source destination = (None, None) \/
  exists r1 r2,
    In r1 df /\ In r2 df /\
    get_preferred_ports df source destination
    = (Some (Source_Port (snd r1)), Some (Destination_Port (snd r2))).
Proof.
  rewrite get_preferred_ports_matched.
  destruct (matched_rows df source destination) as [|first rest] eqn:E;
    [now left | right].
  assert (Hfirst : In first (first :: rest)) by now left.
  destruct (preferred_from_rows Source_Port _ first Hfirst) as [r1 [H1 E1]].
  destruct (preferred_from_rows Destination_Port _ first Hfirst) as [r2 [H2 E2]].
  rewrite <- E in H1, H2.
  apply matched_rows_incl in H1, H2.
  exists r1, r2; rewrite E1, E2; tauto.
Qed.

Lemma text_ports_present (main_df : frame) :
  (forall r, In r main_df ->
             Source_Port (snd r) <> NA /\ Destination_Port (snd r) <> NA) ->
  corrected_present main_df.
Proof.
  intros Htext r _ _; unfold group_corrected.
  destruct (rows_of_link main_df (Normalized r)) as [|sample_row rest];
    [split; discriminate|].
  destruct (get_preferred_ports_cells main_df (Source (snd sample_row))
              (Destination (snd sample_row))) as [->|[r1 [r2 [H1 [H2 ->]]]]];
    [split; discriminate|].
  simpl; split; intros [= E];
    [apply (proj1 (Htext r1 H1)) | apply (proj2 (Htext r2 H2))]; exact E.
Qed.

Lemma group_records_differ (main_df : frame) (k : LinkKey) (i : nat)
  (c : correction) :
  In (i, c) (group_records main_df k) ->
  pc_Issue c = "Port Mismatch" /\
  (pc_Original_Source_Port c <> pc_Corrected_Source_Port c \/
   pc_Original_Destination_Port c <> pc_Corrected_Destination_Port c).
Proof.
  unfold group_records.
  destruct (Nat.ltb 1 (length (rows_of_link main_df k))); [|easy].
  destruct (rows_of_link main_df k) as [|sample_row rest]; [easy|].
  rewrite in_map_iff; intros [r [E Hr]].
  apply filter_In in Hr; destruct Hr as [_ Hd].
  apply differs_true in Hd.
  unfold correction_of in E; injection E as _ <-; simpl; auto.
Qed.

(** X20: on a frame in which no port cell is missing the analyzer does not
    fail, and every record it makes has the issue [Port Mismatch] and shows an
    original port that differs from the corrected one, on the source side or
    on the destination side. *)
Theorem corrections_on_text_ports (main_df : frame) :
  (forall r, In r main_df ->
             Source_Port (snd r) <> NA /\ Destination_Port (snd r) <> NA) ->
  exists recs,
    port_corrections main_df = Ok recs /\
    forall i c, In (i, c) recs ->
      pc_Issue c = "Port Mismatch" /\
      (pc_Original_Source_Port c <> pc_Corrected_Source_Port c \/
       pc_Original_Destination_Port c <> pc_Corrected_Destination_Port c).
Proof.
  intros Htext.
  eexists; split; [apply port_corrections_present, text_ports_present, Htext|].
  intros i c Hic; apply in_flat_map in Hic; destruct Hic as [k [_ Hic]].
  now apply (group_records_differ main_df k i).
Qed.

Lemma corrections_on_text_ports_witness :
  exists recs,
    port_corrections (index_rows eth_then_ae) = Ok recs /\
    forall i c, In (i, c) recs ->
      pc_Issue c = "Port Mismatch" /\
      (pc_Original_Source_Port c <> pc_Corrected_Source_Port c \/
       pc_Original_Destination_Port c <> pc_Corrected_Destination_Port c).
Proof.
  apply (corrections_on_text_ports (index_rows eth_then_ae)).
  intros r [<-|[<-|[]]]; split; discriminate.
Defined.

(** ** Duplicate Links Summary, continued *)

Lemma boolean_mask_map {A : Type} (f : A -> bool) (l : list A) :
  boolean_mask (map f l) l = filter f l.
Proof.
  induction l as [|a l IH]; simpl; [reflexivity|].
  destruct (f a); now rewrite IH.
Qed.

(** In the frame of all duplicates the first row of a link is the one marked
    as original. *)
Lemma first_original (seen : list LinkKey) (ad : frame) (k : LinkKey) :
  ~ In k seen ->
  match rows_of_link ad k with
  | [] => True
  | first :: _ =>
      exists status rest,
        filter (fun rs => String.eqb (snd rs) "Original (would be kept)")
          (filter (fun rs => key_eqb (Normalized (fst rs)) k)
             (combine ad (map keep_status (duplicated_from seen ad))))
        = (first, status) :: rest
  end.
Proof.
  revert seen; induction ad as [|r ad IH]; intros seen Hseen; [exact I|].
  unfold rows_of_link; cbn [filter duplicated_from map combine fst].
  destruct (key_eqb (Normalized r) k) eqn:E.
  - apply key_eqb_eq in E.
    assert (Hfresh : existsb (key_eqb (Normalized r)) seen = false).
    { destruct (existsb (key_eqb (Normalized r)) seen) eqn:Ex; [|reflexivity].
      exfalso; apply Hseen; rewrite <- E.
      now apply in_links_In. }
    rewrite Hfresh; cbn [keep_status filter snd].
    exists "Original (would be kept)"; eexists; reflexivity.
  - apply (IH (Normalized r :: seen)).
    apply key_eqb_neq in E; intros [H|H]; [exact (E H) | exact (Hseen H)].
Qed.

Lemma summarise_group_first (seen : list LinkKey) (ad : frame) (k : LinkKey) :
  ~ In k seen -> In k (map Normalized ad) ->
  summarise_group (combine ad (map keep_status (duplicated_from seen ad))) k
    (rows_of_link ad k)
  = Ok (summary_of_group (rows_of_link ad k)).
Proof.
  intros Hseen Hk.
  pose proof (first_original seen ad k Hseen) as Hfirst.
  pose proof (rows_of_link_nonempty ad k Hk) as Hne.
  unfold summarise_group.
  destruct (rows_of_link ad k) as [|first group]; [congruence|].
  destruct Hfirst as [status [rest ->]]; reflexivity.
Qed.

Lemma summarise_groups_first (ad : frame) (keys : list LinkKey) :
  (forall k, In k keys -> In k (map Normalized ad)) ->
  summarise_groups (combine ad (map keep_status (duplicated ad)))
    (map (fun k => (k, rows_of_link ad k)) keys)
  = Ok (map (fun k => summary_of_group (rows_of_link ad k)) keys).
Proof.
  induction keys as [|k keys IH]; intros Hkeys; simpl; [reflexivity|].
  unfold duplicated in *.
  rewrite (summarise_group_first [] ad k) by (auto; apply Hkeys; now left).
  simpl; rewrite IH by (intros k' Hk'; apply Hkeys; now right).
  reflexivity.
Qed.

Lemma filter_filter_implied {A : Type} (f g : A -> bool) (l : list A) :
  (forall x, f x = true -> g x = true) ->
  filter f (filter g l) = filter f l.
Proof.
  intros H; induction l as [|a l IH]; simpl; [reflexivity|].
  destruct (g a) eqn:Eg; simpl; [now rewrite IH|].
  destruct (f a) eqn:Ef; [|exact IH].
  rewrite (H a Ef) in Eg; discriminate.
Qed.

Lemma duplicated_links_repeated (df : frame) (k : LinkKey) :
  In k (duplicated_links df) -> repeated df k = true.
Proof.
  unfold duplicated_links; intros Hk.
  apply (Permutation_in _ (sort_keys_perm _)), unique_In, in_map_iff in Hk.
  destruct Hk as [r [<- Hr]]; now apply filter_In in Hr.
Qed.

Lemma rows_of_repeated_link (df : frame) (k : LinkKey) :
  repeated df k = true ->
  rows_of_link (filter (fun r => repeated df (Normalized r)) df) k
  = rows_of_link df k.
Proof.
  intros Hk; unfold rows_of_link; apply filter_filter_implied.
  intros r E; apply key_eqb_eq in E; now rewrite E.
Qed.

(** The summary, group by group. *)
Lemma summary_data_groups (df : frame) :
  summary_data df
  = Ok (map (fun k => summary_of_group (rows_of_link df k)) (duplicated_links df)).
Proof.
  unfold summary_data.
  assert (Had : boolean_mask (duplicated_keep_false df) df
                = filter (fun r => repeated df (Normalized r)) df)
    by apply (boolean_mask_map (fun r => repeated df (Normalized r)) df).
  rewrite Had.
  set (ad := filter (fun r => repeated df (Normalized r)) df).
  change (groupby ad)
    with (map (fun k => (k, rows_of_link ad k)) (duplicated_links df)).
  rewrite summarise_groups_first.
  - f_equal; apply map_ext_in; intros k Hk.
    apply duplicated_links_repeated in Hk.
    unfold ad; now rewrite rows_of_repeated_link.
  - intros k Hk; unfold duplicated_links in Hk; fold ad in Hk.
    apply unique_In, (Permutation_in _ (sort_keys_perm _)), Hk.
Qed.

(** The summary of a frame whose Link IDs are text: one row for each LinkKey
    that two or more rows have. *)
Lemma summary_data_rows (df : frame) :
  exists summary,
    summary_data df = Ok summary /\
    length summary = length (duplicated_links df) /\
    map sm_Link_IDs summary
    = map (fun k => PyStr.join ", " (link_ids (rows_of_link df k)))
        (duplicated_links df) /\
    StronglySorted (fun a b => key_leb a b = true) (duplicated_links df) /\
    (forall k, In k (duplicated_links df) <->
               2 <= length (rows_of_link df k)).
Proof.
  eexists; split; [apply summary_data_groups|].
  split; [apply length_map|].
  split; [rewrite map_map; reflexivity|].
  split; [apply sort_keys_sorted|].
  intros k; split.
  - intros Hk; apply duplicated_links_repeated in Hk.
    unfold repeated in Hk; now apply Nat.ltb_lt in Hk.
  - intros Hlen.
    assert (Hrep : repeated df k = true) by (now apply Nat.ltb_lt).
    destruct (rows_of_link df k) as [|r rest] eqn:E; [simpl in Hlen; lia|].
    assert (Hr : In r (rows_of_link df k)) by (rewrite E; now left).
    apply rows_of_link_In in Hr; destruct Hr as [Hr Hkey].
    unfold duplicated_links.
    apply (Permutation_in _ (Permutation_sym (sort_keys_perm _))), unique_In.
    rewrite <- Hkey; apply in_map, filter_In; split; [exact Hr|].
    now rewrite Hkey.
Qed.

(** X21: on a sheet without a [Link ID] column, where the Link IDs are made
    from the row numbers, the summary is always computed (the lookup of the
    kept row never falls outside its group). It has one row for each LinkKey
    that two or more rows of the sheet have, in ascending order of the keys,
    and the row lists the Link IDs of all rows of that link in the order of
    the sheet. *)
Theorem summary_one_row_per_repeated_link (rs : list row) :
  exists summary,
    summary_data (synthesize_link_ids (index_rows rs)) = Ok summary /\
    length summary = length (duplicated_links (synthesize_link_ids (index_rows rs))) /\
    map sm_Link_IDs summary
    = map (fun k => PyStr.join ", "
                      (link_ids (rows_of_link (synthesize_link_ids (index_rows rs)) k)))
        (duplicated_links (synthesize_link_ids (index_rows rs))) /\
    StronglySorted (fun a b => key_leb a b = true)
      (duplicated_links (synthesize_link_ids (index_rows rs))) /\
    (forall k, In k (duplicated_links (synthesize_link_ids (index_rows rs))) <->
               2 <= length (rows_of_link (synthesize_link_ids (index_rows rs)) k)).
Proof. apply summary_data_rows. Qed.

(** Three records of one link and one of another, no [Link ID] column. *)
Example summary_of_row_numbers :
  option_map (map (fun s => (sm_Link_Name s, sm_Link_IDs s, sm_To_Be_Removed s)))
    (match summary_data
             (synthesize_link_ids
                (index_rows
                   [mkRow "R1" (Text "ae1") "R2" (Text "ae2") "";
                    mkRow "R3" (Text "Gi1") "R4" (Text "Gi2") "";
                    mkRow "R2" (Text "Eth2/1") "R1" (Text "Eth1/1") "";
                    mkRow "R1" (Text "Gi3") "R2" (Text "Gi4") ""])) with
     | Ok summary => Some summary
     | Raise _ => None
     end)
  = Some [("R1 to R2", "Row 1, Row 3, Row 4", "Row 3, Row 4")].
Proof. reflexivity. Qed.

Lemma NoDup_map_filter {K V : Type} (key : K -> V) (keep : K -> bool)
  (xs : list K) (Hnd : NoDup (map key xs)) :
  NoDup (map key (filter keep xs)).
Proof.
  induction xs as [|x xs IH]; simpl in *; [constructor|].
  inversion Hnd as [|? ? Hx Hxs]; subst.
  destruct (keep x); simpl; [constructor|]; auto.
  rewrite in_map_iff; intros [y [E Hy]]; apply Hx.
  rewrite <- E; apply in_map; now apply filter_In in Hy.
Qed.

Lemma filter_out_head (x : string) (l : list string) :
  NoDup (x :: l) -> filter (fun y => negb (String.eqb y x)) (x :: l) = l.
Proof.
  intros Hnd; inversion Hnd as [|? ? Hx _]; subst.
  simpl; rewrite String.eqb_refl; simpl.
  clear Hnd; induction l as [|y l IH]; simpl; [reflexivity|].
  destruct (String.eqb y x) eqn:E.
  - apply String.eqb_eq in E; subst; exfalso; apply Hx; now left.
  - simpl; rewrite IH; [reflexivity|]. intros H; apply Hx; now right.
Qed.

Lemma to_be_removed_of_group (group : frame) :
  NoDup (link_ids group) -> 2 <= length group ->
  sm_To_Be_Removed (summary_of_group group)
  = PyStr.join ", " (tl (link_ids group)).
Proof.
  destruct group as [|r0 [|r1 group]]; simpl length; try lia.
  intros Hnd _; unfold summary_of_group; cbn [sm_To_Be_Removed].
  change (link_ids (r0 :: r1 :: group))
    with (Link_ID (snd r0) :: link_ids (r1 :: group)) in *.
  now rewrite (filter_out_head _ _ Hnd).
Qed.

(** With pairwise distinct Link IDs (text), To Be Removed lists the Link IDs
    of all rows of the group but the first. *)
Lemma summary_to_be_removed (df : frame) :
  NoDup (link_ids df) ->
  exists summary,
    summary_data df = Ok summary /\
    map sm_To_Be_Removed summary
    = map (fun k => PyStr.join ", " (tl (link_ids (rows_of_link df k))))
        (duplicated_links df) /\
    (forall k, In k (duplicated_links df) ->
               tl (link_ids (rows_of_link df k)) <> []).
Proof.
  intros Hnd.
  assert (Hlen : forall k, In k (duplicated_links df) ->
                           2 <= length (rows_of_link df k)).
  { intros k Hk; apply duplicated_links_repeated in Hk.
    unfold repeated in Hk; now apply Nat.ltb_lt in Hk. }
  eexists; split; [apply summary_data_groups | split].
  - rewrite map_map; apply map_ext_in; intros k Hk.
    apply to_be_removed_of_group; [|now apply Hlen].
    unfold link_ids, rows_of_link; now apply NoDup_map_filter.
  - intros k Hk; specialize (Hlen k Hk).
    destruct (rows_of_link df k) as [|r0 [|r1 g]]; simpl in *; try lia.
    discriminate.
Qed.

(** X22: the row the summary takes for the kept one is the first row of the
    group in the order of the sheet. On a sheet without a [Link ID] column
    To Be Removed lists the Link IDs (made from the row numbers) of all rows
    of the group but that first one, and is never [None]. *)
Theorem summary_removes_all_but_first (rs : list row) :
  exists summary,
    summary_data (synthesize_link_ids (index_rows rs)) = Ok summary /\
    map sm_To_Be_Removed summary
    = map (fun k => PyStr.join ", "
                      (tl (link_ids
                             (rows_of_link (synthesize_link_ids (index_rows rs)) k))))
        (duplicated_links (synthesize_link_ids (index_rows rs))) /\
    (forall k, In k (duplicated_links (synthesize_link_ids (index_rows rs))) ->
               tl (link_ids (rows_of_link (synthesize_link_ids (index_rows rs)) k))
               <> []).
Proof. apply summary_to_be_removed, synthesized_link_ids_NoDup. Qed.

(** ** The panels, continued *)

Lemma link_analysis_shown {S : SortValues} {O : SetOrder}
  (main_db match_db : DataFrame) (reports : link_reports) :
  link_analysis main_db match_db = Shown reports ->
  analysis_df reports
  = analysis_results (sort_by_link (index_rows (rows main_db)))
      (sort_by_link (index_rows (rows match_db))).
Proof.
  unfold link_analysis.
  destruct (check_required _); [discriminate|].
  destruct (port_corrections _); [|discriminate].
  now intros [= <-].
Qed.

(** X27: whenever the Link Analysis panel shows its reports, the Main
    Analysis has exactly one record for every distinct LinkKey of the Main
    sheet, and the Match Status of that record is [Missing] if and only if
    the key is not a LinkKey of the Match sheet (otherwise it is [Found]). *)
Theorem shown_analysis_one_record_per_link (S : SortValues) (O : SetOrder)
  (main_db match_db : DataFrame) (reports : link_reports) (k : LinkKey) :
  link_analysis main_db match_db = Shown reports ->
  In k (map link_of (rows main_db)) ->
  exists a,
    filter (fun a' => key_eqb (an_Normalized_Link a') k) (analysis_df reports)
    = [a] /\
    an_Normalized_Link a = k /\
    (an_Match_Status a = "Missing" <-> ~ In k (map link_of (rows match_db))) /\
    (an_Match_Status a = "Found" <-> In k (map link_of (rows match_db))).
Proof.
  intros Hshown Hk; rewrite (link_analysis_shown _ _ _ Hshown).
  now apply matcher_one_record_per_link.
Qed.

Lemma shown_analysis_one_record_per_link_witness :
  exists a,
    filter (fun a' => key_eqb (an_Normalized_Link a') ("R3", "R4"))
      (analysis_df
         (mkLinkReports
            [mkAnalysis "R1 to R2" "R1" (Text "Eth1/1") "R2" (Text "Eth2/1")
               "Found" ("R1", "R2");
             mkAnalysis "R3 to R4" "R3" (Text "Eth3/1") "R4" (Text "Eth4/1")
               "Missing" ("R3", "R4")]
            [mkMissing "R3 to R4" "R3" (Some (Text "Eth3/1")) "R4"
               (Some (Text "Eth4/1")) ("R3", "R4")]
            []))
    = [a] /\
    an_Normalized_Link a = ("R3", "R4") /\
    (an_Match_Status a = "Missing"
     <-> ~ In ("R3", "R4")
             (map link_of (rows (mkDataFrame required_cols only_in_main)))) /\
    (an_Match_Status a = "Found"
     <-> In ("R3", "R4")
           (map link_of (rows (mkDataFrame required_cols only_in_main)))).
Proof.
  apply (shown_analysis_one_record_per_link stable_sort_values insertion_order
           (mkDataFrame required_cols two_links)
           (mkDataFrame required_cols only_in_main)).
  - reflexivity.
  - simpl; auto.
Defined.

(** X28: whenever the Link Analysis panel shows its reports, the records of
    the Main Analysis come in the order in which the set of the Main sheet's
    LinkKeys is iterated, one record for each key: they are a rearrangement of
    the ascending sequence of the distinct keys, and need not be ascending
    themselves. *)
Theorem shown_analysis_in_set_order (S : SortValues) (O : SetOrder)
  (main_db match_db : DataFrame) (reports : link_reports) :
  link_analysis main_db match_db = Shown reports ->
  map an_Normalized_Link (analysis_df reports)
  = set_iter (map Normalized (sort_by_link (index_rows (rows main_db)))) /\
  Permutation (map an_Normalized_Link (analysis_df reports))
    (sort_keys (unique (map link_of (rows main_db)))) /\
  NoDup (map an_Normalized_Link (analysis_df reports)).
Proof.
  intros Hshown; rewrite (link_analysis_shown _ _ _ Hshown).
  destruct (analysis_follows_set_order S O (rows main_db) (rows match_db))
    as [E [Hperm _]].
  split; [exact E | split; [exact Hperm|]].
  rewrite E; apply set_iter_NoDup.
Qed.

Lemma shown_analysis_in_set_order_witness :
  map an_Normalized_Link
    (analysis_df
       (mkLinkReports
          [mkAnalysis "R3 to R4" "R3" (Text "Eth3/1") "R4" (Text "Eth4/1")
             "Missing" ("R3", "R4");
           mkAnalysis "R1 to R2" "R1" (Text "Eth1/1") "R2" (Text "Eth2/1")
             "Found" ("R1", "R2")]
          [mkMissing "R3 to R4" "R3" (Some (Text "Eth3/1")) "R4"
             (Some (Text "Eth4/1")) ("R3", "R4")]
          []))
  = @set_iter reverse_order
      (map Normalized
         (@sort_by_link stable_sort_values
            (index_rows (rows (mkDataFrame required_cols two_links))))) /\
  Permutation
    (map an_Normalized_Link
       (analysis_df
          (mkLinkReports
             [mkAnalysis "R3 to R4" "R3" (Text "Eth3/1") "R4" (Text "Eth4/1")
                "Missing" ("R3", "R4");
              mkAnalysis "R1 to R2" "R1" (Text "Eth1/1") "R2" (Text "Eth2/1")
                "Found" ("R1", "R2")]
             [mkMissing "R3 to R4" "R3" (Some (Text "Eth3/1")) "R4"
                (Some (Text "Eth4/1")) ("R3", "R4")]
             [])))
    (sort_keys
       (unique (map link_of (rows (mkDataFrame required_cols two_links))))) /\
  NoDup
    (map an_Normalized_Link
       (analysis_df
          (mkLinkReports
             [mkAnalysis "R3 to R4" "R3" (Text "Eth3/1") "R4" (Text "Eth4/1")
                "Missing" ("R3", "R4");
              mkAnalysis "R1 to R2" "R1" (Text "Eth1/1") "R2" (Text "Eth2/1")
                "Found" ("R1", "R2")]
             [mkMissing "R3 to R4" "R3" (Some (Text "Eth3/1")) "R4"
                (Some (Text "Eth4/1")) ("R3", "R4")]
             []))).
Proof.
  apply (shown_analysis_in_set_order stable_sort_values reverse_order
           (mkDataFrame required_cols two_links)
           (mkDataFrame required_cols only_in_main)).
  reflexivity.
Defined.

(** ** Cross-Dataset Matcher, continued *)

(** X25: every record of the Main Analysis describes one row of the Main
    frame: it has the devices and the ports of that row, its link name is
    made of the two devices, its Normalized Link is the LinkKey of the row,
    and its status is [Found] or [Missing]. *)
Theorem analysis_record_describes_a_row (O : SetOrder)
  (main_df match_df : frame) (a : analysis) :
  In a (analysis_results main_df match_df) ->
  exists r,
    In r main_df /\
    an_Source a = Source (snd r) /\
    an_Destination a = Destination (snd r) /\
    an_Original_Source_Port a = Source_Port (snd r) /\
    an_Original_Destination_Port a = Destination_Port (snd r) /\
    an_Link_Name a = link_name (an_Source a) (an_Destination a) /\
    an_Normalized_Link a
    = normalize_link (PyText (an_Source a)) (PyText (an_Destination a)) /\
    (an_Match_Status a = "Found" \/ an_Match_Status a = "Missing").
Proof.
  unfold analysis_results; rewrite in_flat_map.
  intros [k [_ Ha]]; unfold analyse_link in Ha.
  destruct (rows_of_link main_df k) as [|original rest] eqn:E; [easy|].
  assert (Horig : In original (rows_of_link main_df k)) by (rewrite E; now left).
  apply rows_of_link_In in Horig; destruct Horig as [Hin Hkey].
  destruct (get_preferred_ports main_df (Source (snd original))
              (Destination (snd original))) as [cs cd].
  destruct Ha as [<-|[]]; exists original; cbn.
  repeat split; try assumption; try reflexivity.
  - now symmetry.
  - destruct (in_links k (map Normalized match_df)); auto.
Qed.

Lemma analysis_record_describes_a_row_witness :
  exists r,
    In r (index_rows only_in_main) /\
    an_Source (mkAnalysis "R1 to R2" "R1" (Text "Eth1/1") "R2" (Text "Eth2/1")
                 "Missing" ("R1", "R2")) = Source (snd r) /\
    an_Destination (mkAnalysis "R1 to R2" "R1" (Text "Eth1/1") "R2" (Text "Eth2/1")
                      "Missing" ("R1", "R2")) = Destination (snd r) /\
    an_Original_Source_Port
      (mkAnalysis "R1 to R2" "R1" (Text "Eth1/1") "R2" (Text "Eth2/1")
         "Missing" ("R1", "R2")) = Source_Port (snd r) /\
    an_Original_Destination_Port
      (mkAnalysis "R1 to R2" "R1" (Text "Eth1/1") "R2" (Text "Eth2/1")
         "Missing" ("R1", "R2")) = Destination_Port (snd r) /\
    an_Link_Name (mkAnalysis "R1 to R2" "R1" (Text "Eth1/1") "R2" (Text "Eth2/1")
                    "Missing" ("R1", "R2"))
    = link_name
        (an_Source (mkAnalysis "R1 to R2" "R1" (Text "Eth1/1") "R2" (Text "Eth2/1")
                      "Missing" ("R1", "R2")))
        (an_Destination (mkAnalysis "R1 to R2" "R1" (Text "Eth1/1") "R2"
                           (Text "Eth2/1") "Missing" ("R1", "R2"))) /\
    an_Normalized_Link (mkAnalysis "R1 to R2" "R1" (Text "Eth1/1") "R2"
                          (Text "Eth2/1") "Missing" ("R1", "R2"))
    = normalize_link
        (PyText (an_Source (mkAnalysis "R1 to R2" "R1" (Text "Eth1/1") "R2"
                              (Text "Eth2/1") "Missing" ("R1", "R2"))))
        (PyText (an_Destination (mkAnalysis "R1 to R2" "R1" (Text "Eth1/1") "R2"
                                   (Text "Eth2/1") "Missing" ("R1", "R2")))) /\
    (an_Match_Status (mkAnalysis "R1 to R2" "R1" (Text "Eth1/1") "R2"
                        (Text "Eth2/1") "Missing" ("R1", "R2")) = "Found" \/
     an_Match_Status (mkAnalysis "R1 to R2" "R1" (Text "Eth1/1") "R2"
                        (Text "Eth2/1") "Missing" ("R1", "R2")) = "Missing").
Proof.
  apply (analysis_record_describes_a_row insertion_order
           (index_rows only_in_main) (index_rows [])).
  vm_compute; auto.
Defined.

(** ** Port Correction Analyzer on links recorded in both directions *)

(** The same link recorded in both directions with the same two ports is
    reported: the reversed row is compared with the ports of the first
    direction. *)
Example reversed_row_is_corrected :
  port_corrections
    (index_rows
       [mkRow "R1" (Text "Eth1/1") "R2" (Text "Eth2/1") "L1";
        mkRow "R2" (Text "Eth2/1") "R1" (Text "Eth1/1") "L2"])
  = Ok [(1, mkCorrection "R1 to R2" "R1" "Eth2/1" "Eth1/1" "R2" "Eth1/1" "Eth2/1"
              true "Port Mismatch")].
Proof. reflexivity. Qed.
